(** * labrad.decorators: the [setting] decorator

    A shallow embedding of [src/labrad/decorators.py].  The decorator
    inspects the parameter list of a server method, compiles the list of
    accepted call shapes that is advertised to clients, and builds the
    [unpack] adapter that turns a decoded request payload into a
    positional call of the method.

    Python data is modelled as follows.
    - integers are [Z]; lists and tuples are [list]; strings are [string];
    - the keyword dictionary [**params] is a [gmap string (list string)];
    - [raise] is the [Raise] constructor of the [result] monad;
    - the method being decorated is a [Handler]: the outcome of
      [getargspec], the code flags and the body as a function of the values
      bound to its parameters;
    - [labrad.types] is not part of the sources at hand.  Everything the
      decorator uses from it is gathered in the class [TypeBridge]; the
      module [SampleTypes] gives one instance for concrete evaluation. *)

From stdpp Require Import gmap strings list fin_maps pretty sorting.
From Stdlib Require Import ZArith Lia Ascii.

Local Open Scope Z_scope.

(** ** Python primitives used by the decorator *)

Module Py.

Definition len {A} (l : list A) : Z := Z.of_nat (length l).

(** [l[k:]]; a negative [k] counts from the end. *)
Definition slice_from {A} (l : list A) (k : Z) : list A :=
  if k <? 0 then drop (Z.to_nat (len l + k)) l else drop (Z.to_nat k) l.

(** [l[:k]]; a negative [k] counts from the end. *)
Definition slice_to {A} (l : list A) (k : Z) : list A :=
  if k <? 0 then take (Z.to_nat (len l + k)) l else take (Z.to_nat k) l.

(** [l[i]]; [None] stands for IndexError. *)
Definition getitem {A} (l : list A) (i : Z) : option A :=
  if i <? 0
  then (if len l + i <? 0 then None else l !! Z.to_nat (len l + i))
  else l !! Z.to_nat i.

(** [range(start, stop)] *)
Definition range (start stop : Z) : list Z :=
  (λ k : nat, start + Z.of_nat k) <$> seq 0 (Z.to_nat (stop - start)).

(** [range(start, stop, -1)] *)
Definition range_down (start stop : Z) : list Z :=
  (λ k : nat, start - Z.of_nat k) <$> seq 0 (Z.to_nat (start - stop)).

(** [sep.join(l)] *)
Definition join (sep : string) (l : list string) : string :=
  String.concat sep l.

End Py.

(** ** Values and exceptions *)

Set Warnings "-register-all".

(** Decoded payloads and default values.  The adapter only looks at the
    shape of a payload: [None], a tuple, or anything else. *)
Inductive Value :=
| VNone
| VBool (b : bool)
| VInt (z : Z)
| VStr (s : string)
| VTuple (items : list Value)
| VList (items : list Value).

(** What a Python expression of the decorator can raise. *)
Inductive Raised :=
| Exception (msg : string)       (* [raise Exception(msg)] *)
| TagSyntaxError (tag : string)  (* raised inside [T.parseTypeTag] *)
| IndexError                     (* subscript out of range *)
| TypeError.                     (* subscripting or iterating [None] *)

Inductive result (A : Type) :=
| Ok (a : A)
| Raise (e : Raised).
Arguments Ok {A} a.
Arguments Raise {A} e.

#[global] Instance result_ret : MRet result := λ A, @Ok A.
#[global] Instance result_bind : MBind result :=
  λ A B f m, match m with Ok a => f a | Raise e => Raise e end.

Definition fails {A} (r : result A) : Prop := ∃ e, r = Raise e.

Definition from_option {A} (e : Raised) (o : option A) : result A :=
  match o with Some a => Ok a | None => Raise e end.

(** [for x in l: body(x)], stopping at the first exception. *)
Fixpoint for_each {A} (body : A → result unit) (l : list A) : result unit :=
  match l with
  | [] => Ok ()
  | x :: l' => _ ← body x; for_each body l'
  end.

(** ** The cartesian product *)

(** [_product(lists)]:
    [[[h] + t for h in lists[0] for t in _product(lists[1:])]]. *)
Fixpoint _product {A} (lists : list (list A)) : list (list A) :=
  match lists with
  | [] => [[]]
  | l0 :: rest => h ← l0; t ← _product rest; [h :: t]
  end.

(** ** The interface to [labrad.types] *)

(** The decorator uses the type module [T] through: [T.parseTypeTag]
    ([None] when the parser raises), the constructors [T.LRNone()] and
    [T.LRCluster] applied to the items, the [isinstance] tests against [T.LRAny] and
    [T.LRCluster], equality of descriptors (the [in] operator), [str] of a
    descriptor (the [%s] conversion) and iteration over a cluster
    ([zip(t, args)]). *)
Class TypeBridge := {
  LRType : Type;
  parseTypeTag : string → option LRType;
  LRNone : LRType;
  LRCluster : list LRType → LRType;
  is_LRAny : LRType → bool;
  is_LRCluster : LRType → bool;
  type_eq : LRType → LRType → bool;
  type_str : LRType → string;
  type_iter : LRType → list LRType;
}.

(** ** Handlers and calls *)

(** The result of calling a function with positional arguments: the value
    of its body, or the TypeError of a wrong argument count. *)
Inductive Outcome (R : Type) :=
| Returned (r : R)
| ArgumentError.
Arguments Returned {R} r.
Arguments ArgumentError {R}.

Definition Callable (R : Type) : Type := list Value → Outcome R.

(** A method without [*args] and [**kwargs]: [argnames] and [defaults]
    are [getargspec(f).args] and [getargspec(f).defaults]; the defaults
    belong to the last parameters. *)
Record Handler (R : Type) := {
  func_name : string;               (* [f.__name__] *)
  co_flags : Z;                     (* [f.func_code.co_flags] *)
  argnames : list string;
  defaults : option (list Value);
  body : list Value → R;
}.
Arguments func_name {R} h.
Arguments co_flags {R} h.
Arguments argnames {R} h.
Arguments defaults {R} h.
Arguments body {R} h.

Definition defaults_list {R} (f : Handler R) : list Value :=
  default [] (defaults f).

(** Python's binding of positional arguments: the values bound to all
    parameters, the trailing ones taken from the defaults. *)
Definition bind_positional {R} (f : Handler R) (pos : list Value)
  : option (list Value) :=
  let L := length (argnames f) in
  let D := length (defaults_list f) in
  if bool_decide (L < length pos)%nat || bool_decide (length pos < L - D)%nat
  then None
  else Some (pos ++ drop (length pos - (L - D))%nat (defaults_list f)).

(** The call of [f] with the positional arguments [pos]. *)
Definition call {R} (f : Handler R) : Callable R :=
  λ pos, match bind_positional f pos with
         | Some bound => Returned (body f bound)
         | None => ArgumentError
         end.

(** [_isGenerator(f)]: [bool(f.func_code.co_flags & 0x20)] *)
Definition _isGenerator {R} (f : Handler R) : bool :=
  negb (Z.land (co_flags f) 0x20 =? 0).

(** ** The decorator *)

(** The arguments of [setting(lr_ID, lr_name, returns, lr_num_params,
    **params)]. *)
Record SettingArgs := {
  lr_ID : Z;
  lr_name : option string;
  returns : list string;
  lr_num_params : Z;
  params : gmap string (list string);
}.

(** The decorated function: the attributes stored on [f].  [accepts_t] is
    the local list of descriptors built next to [accepts_s]. *)
Record Setting (T R : Type) := {
  ID : Z;
  name : string;
  accepts : list string;
  accepts_t : list T;
  setting_returns : list string;
  isSetting : bool;
  unpack : Value → Value → Value → Outcome R;
  func : Callable R;
}.
Arguments ID {T R} s.
Arguments name {T R} s.
Arguments accepts {T R} s.
Arguments accepts_t {T R} s.
Arguments setting_returns {T R} s.
Arguments isSetting {T R} s.
Arguments unpack {T R} s.
Arguments func {T R} s.

Definition msg_invalid_param (p : string) : string :=
  "'" +:+ p +:+ "' is not a valid parameter.".
Definition msg_must_specify : string :=
  "Must specify types for first argument when fewer than two args are required.".
Definition msg_cluster_or_any : string :=
  "Cannot accept cluster or ? in first arg when fewer than two args are required.".
Definition msg_empty_many_required : string :=
  "'' not allowed when more than one arg is required.".
Definition msg_empty_after_first : string :=
  "'' not allowed after first arg.".
Definition msg_cluster_first : string :=
  "Can't accept cluster in first param.".

(** The four adapters. *)
Section Adapters.
Context {R : Type} (f : Callable R).

(** [Nparams == 0]: [return f(self, c)] *)
Definition unpack_none : Value → Value → Value → Outcome R :=
  λ self c data, f [self; c].

(** [Nparams == 1], [Nrequired == 0] *)
Definition unpack_one_optional : Value → Value → Value → Outcome R :=
  λ self c data,
    match data with
    | VNone => f [self; c]
    | _ => f [self; c; data]
    end.

(** [unpack = f] *)
Definition unpack_direct : Value → Value → Value → Outcome R :=
  λ self c data, f [self; c; data].

(** [Nparams >= 2], [Nrequired == 0] *)
Definition unpack_many_optional : Value → Value → Value → Outcome R :=
  λ self c data,
    match data with
    | VTuple items => f (self :: c :: items)
    | VNone => f [self; c]
    | _ => f [self; c; data]
    end.

(** [Nparams >= 2], [Nrequired != 0] *)
Definition unpack_many : Value → Value → Value → Outcome R :=
  λ self c data,
    match data with
    | VTuple items => f (self :: c :: items)
    | _ => f [self; c; data]
    end.
End Adapters.

Section Decorator.
Context `{TB : TypeBridge}.
Context {R : Type}.
(** [repr] of a default value (the [%r] conversion). *)
Variable repr : Value → string.
(** [twisted.internet.defer.inlineCallbacks] *)
Variable inlineCallbacks : Callable R → Callable R.

Definition parse (s : string) : result LRType :=
  from_option (TagSyntaxError s) (parseTypeTag s).

(** [T.LRNone() in types] *)
Definition has_LRNone (types : list LRType) : bool :=
  existsb (type_eq LRNone) types.

(** [defaults[i]] *)
Definition defaults_item (ds : option (list Value)) (i : Z) : result Value :=
  match ds with
  | None => Raise TypeError
  | Some l => from_option IndexError (Py.getitem l i)
  end.

Definition defaults_note (defstr : string) : string :=
  ": defaults [" +:+ defstr +:+ "]".

(** Lines 64-66. *)
Definition check_params (ps : gmap string (list string)) (args : list string)
  : result unit :=
  for_each (λ p, if bool_decide (p ∈ args) then Ok ()
                 else Raise (Exception (msg_invalid_param p)))
           (map_to_list ps).*1.

(** Lines 106-115. *)
Definition check_first_arg (ps : gmap string (list string)) (a0 : string)
    (Nrequired : Z) : result unit :=
  if Nrequired <=? 1 then
    match ps !! a0 with
    | None => Raise (Exception msg_must_specify)
    | Some tags =>
        for_each (λ s, t ← parse s;
                       if is_LRAny t || is_LRCluster t
                       then Raise (Exception msg_cluster_or_any)
                       else Ok ()) tags
    end
  else Ok ().

(** Lines 118-121. *)
Definition check_empty_first (ps : gmap string (list string)) (a0 : string)
    (Nrequired : Z) : result unit :=
  types ← mapM parse (default [] (ps !! a0));
  if (1 <? Nrequired) && has_LRNone types
  then Raise (Exception msg_empty_many_required)
  else Ok ().

(** Lines 124-127. *)
Definition check_empty_rest (ps : gmap string (list string))
    (rest : list string) : result unit :=
  for_each (λ p, types ← mapM parse (default [] (ps !! p));
                 if has_LRNone types
                 then Raise (Exception msg_empty_after_first)
                 else Ok ()) rest.

(** Lines 134-138. *)
Definition build_groups (ps : gmap string (list string)) (args : list string)
    (Nparams Nrequired : Z) : list (list string) :=
  n ← Py.range_down Nparams (Nrequired - 1);
  let lists := (λ a, default ["?"] (ps !! a)) <$> Py.slice_to args n in
  if Py.len lists =? 0 then [] else _product lists.

(** Lines 155-157: the annotation of a group of length [glen]. *)
Definition defaults_annotation (args : list string)
    (ds : option (list Value)) (Nparams glen : Z) : result string :=
  parts ← mapM (λ n, a ← from_option IndexError (Py.getitem args n);
                     d ← defaults_item ds (n - glen);
                     Ok (a +:+ "=" +:+ repr d))
               (Py.range glen Nparams);
  Ok (defaults_note (Py.join ", " parts)).

(** Lines 143-159: the body of the loop over the groups. *)
Definition render_group (args : list string) (ds : option (list Value))
    (Nparams : Z) (group : list string) : result (LRType * string) :=
  '(t, s) ← (if 1 <? Py.len group then
               ts ← mapM parse group;
               let t := LRCluster ts in
               let s := Py.join ", "
                          (zip_with (λ sub_t arg, type_str sub_t +:+ "{" +:+ arg +:+ "}")
                                    (type_iter t) args) in
               Ok (t, "(" +:+ s +:+ ")")
             else
               g0 ← from_option IndexError (Py.getitem group 0);
               t ← parse g0;
               if is_LRCluster t then Raise (Exception msg_cluster_first)
               else
                 a0 ← from_option IndexError (Py.getitem args 0);
                 Ok (t, g0 +:+ "{" +:+ a0 +:+ "}"));
  if Py.len group <? Nparams then
    note ← defaults_annotation args ds Nparams (Py.len group);
    Ok (t, s +:+ note)
  else Ok (t, s).

(** Lines 161-166: the entry appended when nothing is required. *)
Definition all_defaults_entry (args : list string)
    (ds : option (list Value)) : result string :=
  match ds with
  | None => Raise TypeError
  | Some l =>
      Ok (defaults_note
            (Py.join ", " (zip_with (λ a d, a +:+ "=" +:+ repr d) args l)))
  end.

(** The three branches on [Nparams]; each gives [accepts_s], [accepts_t]
    and [unpack]. *)
Definition Compiled : Type :=
  list string * list LRType * (Value → Value → Value → Outcome R).

(** Lines 72-78. *)
Definition compile_zero (f : Callable R) : result Compiled :=
  let accepts_s := [""] in
  accepts_t ← mapM parse accepts_s;
  Ok (accepts_s, accepts_t, unpack_none f).

(** Lines 80-101.  [accepts_s] is the very list stored in [params], so the
    [append] also changes the caller's list; the decorator does not read
    it again. *)
Definition compile_one (ps : gmap string (list string)) (a0 : string)
    (ds : option (list Value)) (Nrequired : Z) (f : Callable R)
  : result Compiled :=
  let accepts_s := default [] (ps !! a0) in
  accepts_t ← mapM parse accepts_s;
  if Nrequired =? 0 then
    if negb (Py.len accepts_t =? 0) && negb (has_LRNone accepts_t) then
      d0 ← defaults_item ds 0;
      Ok (accepts_s ++ [defaults_note (a0 +:+ "=" +:+ repr d0)],
          accepts_t ++ [LRNone], unpack_one_optional f)
    else Ok (accepts_s, accepts_t, unpack_one_optional f)
  else Ok (accepts_s, accepts_t, unpack_direct f).

(** Lines 103-182. *)
Definition compile_many (ps : gmap string (list string)) (args : list string)
    (ds : option (list Value)) (Nparams Nrequired : Z) (f : Callable R)
  : result Compiled :=
  a0 ← from_option IndexError (Py.getitem args 0);
  _ ← check_first_arg ps a0 Nrequired;
  _ ← check_empty_first ps a0 Nrequired;
  _ ← check_empty_rest ps (Py.slice_from args 1);
  let groups := build_groups ps args Nparams Nrequired in
  rendered ← mapM (render_group args ds Nparams) groups;
  let accepts_t := rendered.*1 in
  let accepts_s := rendered.*2 in
  if Nrequired =? 0 then
    if negb (has_LRNone accepts_t) then
      entry ← all_defaults_entry args ds;
      Ok (accepts_s ++ [entry], accepts_t ++ [LRNone], unpack_many_optional f)
    else Ok (accepts_s, accepts_t, unpack_many_optional f)
  else Ok (accepts_s, accepts_t, unpack_many f).

Definition setting_args (sa : SettingArgs) (f : Handler R) : list string :=
  Py.slice_from (argnames f) (lr_num_params sa).
Definition Nparams (sa : SettingArgs) (f : Handler R) : Z :=
  Py.len (setting_args sa f).
Definition Noptional (f : Handler R) : Z :=
  match defaults f with None => 0 | Some l => Py.len l end.
Definition Nrequired (sa : SettingArgs) (f : Handler R) : Z :=
  Nparams sa f - Noptional f.

(** [f] after lines 58-59. *)
Definition lifted (f : Handler R) : Callable R :=
  if _isGenerator f then inlineCallbacks (call f) else call f.

Definition compile (sa : SettingArgs) (f : Handler R) : result Compiled :=
  let args := setting_args sa f in
  _ ← check_params (params sa) args;
  match args with
  | [] => compile_zero (lifted f)
  | [a0] => compile_one (params sa) a0 (defaults f) (Nrequired sa f) (lifted f)
  | _ => compile_many (params sa) args (defaults f)
           (Nparams sa f) (Nrequired sa f) (lifted f)
  end.

(** [setting(...)(f)]: lines 53-190. *)
Definition decorated (sa : SettingArgs) (f : Handler R)
  : result (Setting LRType R) :=
  '(accepts_s, accepts_t, unpack) ← compile sa f;
  Ok {| ID := lr_ID sa;
        name := match lr_name sa with
                | Some s => if bool_decide (s = "") then func_name f else s
                | None => func_name f
                end;
        accepts := accepts_s;
        accepts_t := accepts_t;
        setting_returns := returns sa;
        isSetting := true;
        unpack := unpack;
        func := lifted f |}.

End Decorator.

(** ** A concrete type module and [repr] *)

(** One type module to evaluate the decorator with: descriptors for the
    no-argument type, the wildcard, four scalars and clusters. *)
Module SampleTypes.

Inductive ty :=
| TNone | TAny | TBool | TInt | TWord | TStr
| TCluster (items : list ty).

Definition scalar (c : ascii) : option ty :=
  if bool_decide (c = "_"%char) then Some TNone
  else if bool_decide (c = "?"%char) then Some TAny
  else if bool_decide (c = "b"%char) then Some TBool
  else if bool_decide (c = "i"%char) then Some TInt
  else if bool_decide (c = "w"%char) then Some TWord
  else if bool_decide (c = "s"%char) then Some TStr
  else None.

(** Parses types up to the end of the input or the next closing
    parenthesis; returns them with the rest of the input. *)
Fixpoint parse_types (fuel : nat) (cs : list ascii)
  : option (list ty * list ascii) :=
  match fuel with
  | O => None
  | S fuel' =>
      match cs with
      | [] => Some ([], [])
      | c :: r =>
          if bool_decide (c = ")"%char) then Some ([], cs)
          else if bool_decide (c = "("%char) then
            match parse_types fuel' r with
            | Some (t :: items, c' :: r') =>
                if bool_decide (c' = ")"%char) then
                  match parse_types fuel' r' with
                  | Some (ts, r'') => Some (TCluster (t :: items) :: ts, r'')
                  | None => None
                  end
                else None
            | _ => None
            end
          else
            match scalar c, parse_types fuel' r with
            | Some t, Some (ts, r') => Some (t :: ts, r')
            | _, _ => None
            end
      end
  end.

(** Modelled from the spec: the type-tag parser [T.parseTypeTag] of
    [labrad.types] is outside the sources.  The empty tag is the
    no-argument descriptor (also written [_]), [?] is the wildcard, [b],
    [i], [w] and [s] are scalars, parentheses enclose a cluster, and
    several types in a row at top level form a cluster.  Any other tag is
    a syntax error. *)
Definition parse_tag (s : string) : option ty :=
  match parse_types (S (String.length s)) (String.list_ascii_of_string s) with
  | Some ([], []) => Some TNone
  | Some ([t], []) => Some t
  | Some (ts, []) => Some (TCluster ts)
  | _ => None
  end.

Fixpoint ty_eq (a b : ty) : bool :=
  match a, b with
  | TNone, TNone | TAny, TAny | TBool, TBool
  | TInt, TInt | TWord, TWord | TStr, TStr => true
  | TCluster xs, TCluster ys =>
      (fix go (xs ys : list ty) : bool :=
         match xs, ys with
         | [], [] => true
         | x :: xs', y :: ys' => ty_eq x y && go xs' ys'
         | _, _ => false
         end) xs ys
  | _, _ => false
  end.

Fixpoint ty_str (a : ty) : string :=
  match a with
  | TNone => "_" | TAny => "?" | TBool => "b"
  | TInt => "i" | TWord => "w" | TStr => "s"
  | TCluster xs => "(" +:+ String.concat "" (List.map ty_str xs) +:+ ")"
  end.

#[global] Instance bridge : TypeBridge := {|
  LRType := ty;
  parseTypeTag := parse_tag;
  LRNone := TNone;
  LRCluster := TCluster;
  is_LRAny := λ t, match t with TAny => true | _ => false end;
  is_LRCluster := λ t, match t with TCluster _ => true | _ => false end;
  type_eq := ty_eq;
  type_str := ty_str;
  type_iter := λ t, match t with TCluster xs => xs | _ => [] end;
|}.

(** [repr] of [None], booleans, integers, and tuples and lists of them;
    a string is put between single quotes, which is its [repr] when it
    has only printable characters and neither quote nor backslash. *)
Fixpoint repr (v : Value) : string :=
  match v with
  | VNone => "None"
  | VBool true => "True"
  | VBool false => "False"
  | VInt z => pretty z
  | VStr s => "'" +:+ s +:+ "'"
  | VTuple [x] => "(" +:+ repr x +:+ ",)"
  | VTuple xs => "(" +:+ String.concat ", " (List.map repr xs) +:+ ")"
  | VList xs => "[" +:+ String.concat ", " (List.map repr xs) +:+ "]"
  end.

(** A handler whose body returns the values bound to its parameters. *)
Definition method (fname : string) (args : list string)
    (ds : option (list Value)) : Handler (list Value) :=
  {| func_name := fname; co_flags := 0x43; argnames := args;
     defaults := ds; body := λ bound, bound |}.

(** [@setting(lr_ID, **params)] *)
Definition setting (lr_ID : Z) (ps : list (string * list string))
  : SettingArgs :=
  {| lr_ID := lr_ID; lr_name := None; returns := [];
     lr_num_params := 2; params := list_to_map ps |}.

Definition register (sa : SettingArgs) (f : Handler (list Value))
  : result (Setting ty (list Value)) :=
  decorated repr (λ g, g) sa f.

Definition advertised (sa : SettingArgs) (f : Handler (list Value))
  : result (list string * list ty) :=
  s ← register sa f; Ok (accepts s, accepts_t s).

End SampleTypes.

(** ** Notions used in the statements *)

(** Exceptions that come from the parser or from a subscript, not from one
    of the [raise] statements of the decorator. *)
Inductive low_level : Raised → Prop :=
| low_level_tag (s : string) : low_level (TagSyntaxError s)
| low_level_index : low_level IndexError
| low_level_type : low_level TypeError.

Section Notions.
Context `{TB : TypeBridge} {R : Type}.

(** The tags declared for the parameter [args[j]], if any. *)
Definition declared (sa : SettingArgs) (f : Handler R) (j : nat)
  : option (list string) :=
  a ← setting_args sa f !! j; params sa !! a.

(** [params.get(args[0], [])] *)
Definition declared_first (sa : SettingArgs) (f : Handler R) : list string :=
  default [] (declared sa f 0).

(** The no-argument descriptor occurs among the types declared for
    [args[j]]. *)
Definition declares_none (sa : SettingArgs) (f : Handler R) (j : nat) : Prop :=
  ∃ tags s t, declared sa f j = Some tags ∧ s ∈ tags
              ∧ parseTypeTag s = Some t ∧ type_eq LRNone t = true.

(** The default that Python binds to the parameter at position [i] of the
    whole parameter list: the defaults belong to the last parameters. *)
Definition default_of (f : Handler R) (i : nat) : option Value :=
  let required := (length (argnames f) - length (defaults_list f))%nat in
  if bool_decide (required ≤ i)%nat
  then defaults_list f !! (i - required)%nat
  else None.

(** The declared default of the setting parameter [args[j]]. *)
Definition param_default (sa : SettingArgs) (f : Handler R) (j : nat)
  : option Value :=
  default_of f (length (argnames f) - length (setting_args sa f) + j)%nat.

(** The first parameter has a declared list of types, none of which
    parses to the wildcard or to a cluster. *)
Definition first_types_concrete (sa : SettingArgs) (f : Handler R) : Prop :=
  ∃ tags, declared sa f 0 = Some tags
          ∧ ∀ s t, s ∈ tags → parseTypeTag s = Some t →
                   is_LRAny t || is_LRCluster t = false.

(** The method can be called with the two context arguments alone. *)
Definition accepts_empty_call (f : Handler R) : Prop :=
  ∀ self c, call f [self; c] ≠ ArgumentError.

End Notions.

(** ** Further notions *)

(** The product of the numbers of candidates of the positions. *)
Definition product_size {A} (lists : list (list A)) : nat :=
  foldr (λ l n, (length l * n)%nat) 1%nat lists.

(** The advertised part of a registration: the strings and their
    descriptors. *)
Definition table {T R} (r : result (Setting T R))
  : result (list string * list T) :=
  st ← r; Ok (accepts st, accepts_t st).

Section FurtherNotions.
Context `{TB : TypeBridge} {R : Type}.

(** [params.get(a, ['?'])]: the tags a parameter can take in a group. *)
Definition candidates (sa : SettingArgs) (a : string) : list string :=
  default ["?"] (params sa !! a).

(** The groups of the branch for two or more parameters. *)
Definition groups_of (sa : SettingArgs) (f : Handler R) : list (list string) :=
  build_groups (params sa) (setting_args sa f) (Nparams sa f) (Nrequired sa f).

(** A tag that a registration can hand to the parser: the empty tag, the
    wildcard, or a declared tag. *)
Definition tag_used (sa : SettingArgs) (s : string) : Prop :=
  s = "" ∨ s = "?" ∨ ∃ p tags, params sa !! p = Some tags ∧ s ∈ tags.

(** The pieces [name=default] of an annotation for the parameters at the
    positions [js], each with its declared default. *)
Definition declared_pairs (repr : Value → string) (sa : SettingArgs)
    (f : Handler R) (js : list nat) (parts : list string) : Prop :=
  Forall2 (λ j part, ∃ a d, setting_args sa f !! j = Some a
                            ∧ param_default sa f j = Some d
                            ∧ part = a +:+ "=" +:+ repr d) js parts.

(** The ways in which a registration fails, each with its cause. *)
Inductive failure (sa : SettingArgs) (f : Handler R) : Raised → Prop :=
| failure_unknown_keyword (p : string) :
    is_Some (params sa !! p) → p ∉ setting_args sa f →
    failure sa f (Exception (msg_invalid_param p))
| failure_tag_syntax (s : string) :
    tag_used sa s → parseTypeTag s = None →
    failure sa f (TagSyntaxError s)
| failure_first_undeclared :
    2 ≤ Nparams sa f → Nrequired sa f ≤ 1 → declared sa f 0 = None →
    failure sa f (Exception msg_must_specify)
| failure_first_ambiguous (tags : list string) (s : string) (t : LRType) :
    2 ≤ Nparams sa f → Nrequired sa f ≤ 1 →
    declared sa f 0 = Some tags → s ∈ tags → parseTypeTag s = Some t →
    is_LRAny t || is_LRCluster t = true →
    failure sa f (Exception msg_cluster_or_any)
| failure_empty_first :
    2 ≤ Nparams sa f → 1 < Nrequired sa f → declares_none sa f 0 →
    failure sa f (Exception msg_empty_many_required)
| failure_empty_later (j : nat) :
    2 ≤ Nparams sa f → j ≠ 0%nat → declares_none sa f j →
    failure sa f (Exception msg_empty_after_first).

End FurtherNotions.

(** ** Example settings *)

Module Examples.
Import SampleTypes.

Definition self : Value := VStr "server".
Definition ctx : Value := VStr "context".

(** [def ping(self, c)] *)
Definition ping : Handler (list Value) :=
  method "ping" ["self"; "c"] None.

(** [def echo(self, c, data)] *)
Definition echo : Handler (list Value) :=
  method "echo" ["self"; "c"; "data"] None.

(** [def level(self, c, value=1)] *)
Definition level : Handler (list Value) :=
  method "level" ["self"; "c"; "value"] (Some [VInt 1]).

(** [def put(self, c, key, value)] *)
Definition put : Handler (list Value) :=
  method "put" ["self"; "c"; "key"; "value"] None.

(** [def scan(self, c, start, count=10)] *)
Definition scan : Handler (list Value) :=
  method "scan" ["self"; "c"; "start"; "count"] (Some [VInt 10]).

(** [def move(self, c, axis, steps=1, speed=2)] *)
Definition move : Handler (list Value) :=
  method "move" ["self"; "c"; "axis"; "steps"; "speed"]
         (Some [VInt 1; VInt 2]).

(** [def window(self, c, lo=0, hi=5)] *)
Definition window : Handler (list Value) :=
  method "window" ["self"; "c"; "lo"; "hi"] (Some [VInt 0; VInt 5]).

(** [def level_later(self, c, value=1)], a generator (flag 0x20 set). *)
Definition level_later : Handler (list Value) :=
  {| func_name := "level_later"; co_flags := 0x63;
     argnames := ["self"; "c"; "value"]; defaults := Some [VInt 1];
     body := λ _, [] |}.

(** [def level_ctx(self, c=0, value=1)]: the context has a default too. *)
Definition level_ctx : Handler (list Value) :=
  method "level_ctx" ["self"; "c"; "value"] (Some [VInt 0; VInt 1]).

(** [def shifted(self, c=0, a=1, b=2)]: the context has a default too. *)
Definition shifted : Handler (list Value) :=
  method "shifted" ["self"; "c"; "a"; "b"] (Some [VInt 0; VInt 1; VInt 2]).

End Examples.

(** ** Reasoning about the exception monad *)

Lemma bind_Ok {A B} (m : result A) (k : A → result B) (b : B) :
  m ≫= k = Ok b ↔ ∃ a, m = Ok a ∧ k a = Ok b.
Proof.
  destruct m as [a|e]; simpl; split.
  - intros Hk. by exists a.
  - by intros (a' & [= <-] & Hk).
  - discriminate.
  - by intros (a' & [=] & _).
Qed.

Lemma bind_Raise {A B} (m : result A) (k : A → result B) (e : Raised) :
  m ≫= k = Raise e ↔ m = Raise e ∨ ∃ a, m = Ok a ∧ k a = Raise e.
Proof.
  destruct m as [a|e']; simpl; split.
  - intros Hk. right. by exists a.
  - by intros [[=] | (a' & [= <-] & Hk)].
  - intros [= <-]. by left.
  - by intros [[= <-] | (a' & [=] & _)].
Qed.

Lemma fails_raise {A} (e : Raised) : fails (@Raise A e).
Proof. by exists e. Qed.

Lemma fails_bind {A B} (m : result A) (k : A → result B) :
  (∀ a, m = Ok a → fails (k a)) → fails (m ≫= k).
Proof.
  destruct m as [a|e]; simpl; intros Hk; [by apply Hk | by exists e].
Qed.

Lemma fails_bind_l {A B} (m : result A) (k : A → result B) :
  fails m → fails (m ≫= k).
Proof. intros [e ->]. by exists e. Qed.

Section Loops.
Context {A B : Type}.

(** A loop raises what its body raises at some element. *)
Lemma for_each_Raise (body : A → result unit) (l : list A) (e : Raised) :
  for_each body l = Raise e → ∃ x, x ∈ l ∧ body x = Raise e.
Proof.
  induction l as [|x l IH]; simpl; [discriminate |].
  intros [Hx | ([] & _ & Hl)]%bind_Raise.
  - exists x. split; [left | done].
  - destruct (IH Hl) as (y & Hy & Hby). exists y. split; [by right | done].
Qed.

Lemma for_each_Ok (body : A → result unit) (l : list A) :
  for_each body l = Ok () ↔ ∀ x, x ∈ l → body x = Ok ().
Proof.
  induction l as [|x l IH]; simpl.
  - split; [intros _ y Hy; by apply elem_of_nil in Hy | done].
  - rewrite bind_Ok. split.
    + intros ([] & Hx & Hl) y [-> | Hy]%elem_of_cons; [done |].
      by apply IH.
    + intros Hall. exists (). split; [apply Hall; left |].
      apply IH. intros y Hy. apply Hall. by right.
Qed.

(** A loop whose body raises at some element raises, there or before. *)
Lemma for_each_fails (body : A → result unit) (l : list A) (x : A) :
  x ∈ l → fails (body x) → fails (for_each body l).
Proof.
  intros Hx Hbx. destruct (for_each body l) as [[]|e] eqn:Hl; [| by exists e].
  rewrite for_each_Ok in Hl. destruct Hbx as [e He].
  rewrite (Hl x Hx) in He. discriminate.
Qed.

Lemma mapM_Ok (f : A → result B) (l : list A) (k : list B) :
  mapM f l = Ok k ↔ Forall2 (λ x y, f x = Ok y) l k.
Proof.
  revert k. induction l as [|x l IH]; intros k; simpl.
  - split; [intros [= <-]; constructor | by inversion 1].
  - rewrite bind_Ok. split.
    + intros (y & Hy & (k' & Hk' & [= <-])%bind_Ok).
      constructor; [done | by apply IH].
    + inversion 1 as [|? y ? k' Hy Hk']; subst.
      exists y. split; [done |]. apply bind_Ok.
      exists k'. split; [by apply IH | done].
Qed.

Lemma mapM_Raise (f : A → result B) (l : list A) (e : Raised) :
  mapM f l = Raise e → ∃ x, x ∈ l ∧ f x = Raise e.
Proof.
  induction l as [|x l IH]; simpl; [discriminate |].
  intros [Hx | (y & _ & [Hl | (k & _ & [=])]%bind_Raise)]%bind_Raise.
  - exists x. split; [left | done].
  - destruct (IH Hl) as (z & Hz & Hfz). exists z. split; [by right | done].
Qed.

Lemma mapM_fails (f : A → result B) (l : list A) (x : A) :
  x ∈ l → fails (f x) → fails (mapM f l).
Proof.
  intros Hx Hfx. revert Hx.
  induction l as [|y l IH]; [by intros ?%elem_of_nil |].
  simpl. intros [Hxy | Hx]%elem_of_cons.
  - subst y. by apply fails_bind_l.
  - apply fails_bind. intros ? _. apply fails_bind_l. by apply IH.
Qed.

Lemma mapM_length (f : A → result B) (l : list A) (k : list B) :
  mapM f l = Ok k → length k = length l.
Proof. intros Hk%mapM_Ok. symmetry. by eapply Forall2_length. Qed.

End Loops.

(** ** The structure of a registration *)

Section Registration.
Context `{TB : TypeBridge} {R : Type}.
Variable repr : Value → string.
Variable inlineCallbacks : Callable R → Callable R.

Local Abbreviation registration := (decorated repr inlineCallbacks).
Local Abbreviation compilation := (compile repr inlineCallbacks).
Local Abbreviation target := (lifted inlineCallbacks).

Lemma Nparams_nonneg (sa : SettingArgs) (f : Handler R) : 0 ≤ Nparams sa f.
Proof. unfold Nparams, Py.len. lia. Qed.

Lemma Noptional_nonneg (f : Handler R) : 0 ≤ Noptional f.
Proof. unfold Noptional, Py.len. destruct (defaults f); lia. Qed.

Lemma Nrequired_le_Nparams (sa : SettingArgs) (f : Handler R) :
  Nrequired sa f ≤ Nparams sa f.
Proof. unfold Nrequired. pose proof (Noptional_nonneg f). lia. Qed.

Lemma Nparams_zero (sa : SettingArgs) (f : Handler R) :
  Nparams sa f = 0 ↔ setting_args sa f = [].
Proof.
  unfold Nparams, Py.len. destruct (setting_args sa f); simpl; split;
    (done || lia).
Qed.

Lemma Nparams_one (sa : SettingArgs) (f : Handler R) :
  Nparams sa f = 1 ↔ ∃ a0, setting_args sa f = [a0].
Proof.
  unfold Nparams, Py.len. destruct (setting_args sa f) as [|a0 [|a1 l]];
    simpl; split; try lia; try (by intros [? [=]]).
  intros _. by exists a0.
Qed.

Lemma Nparams_many (sa : SettingArgs) (f : Handler R) :
  2 ≤ Nparams sa f ↔ ∃ a0 a1 l, setting_args sa f = a0 :: a1 :: l.
Proof.
  unfold Nparams, Py.len. destruct (setting_args sa f) as [|a0 [|a1 l]];
    simpl; split; try lia; try (by intros (? & ? & ? & [=])).
  intros _. by exists a0, a1, l.
Qed.

(** The decorator fails exactly when the compilation of the accepted
    shapes fails, and with the same exception. *)
Lemma decorated_Raise (sa : SettingArgs) (f : Handler R) (e : Raised) :
  registration sa f = Raise e ↔ compilation sa f = Raise e.
Proof.
  unfold decorated. rewrite bind_Raise. split.
  - intros [H | ([[s t] u] & _ & [=])]; done.
  - by left.
Qed.

Lemma decorated_fails (sa : SettingArgs) (f : Handler R) :
  fails (compilation sa f) → fails (registration sa f).
Proof. intros [e He]. exists e. by apply decorated_Raise. Qed.

Lemma decorated_Ok (sa : SettingArgs) (f : Handler R) (st : Setting LRType R) :
  registration sa f = Ok st →
  compilation sa f = Ok (accepts st, accepts_t st, unpack st).
Proof.
  unfold decorated. rewrite bind_Ok.
  intros ([[s t] u] & Hc & [= <-]). done.
Qed.

(** The adapter chosen on lines 168-182. *)
Lemma compile_many_unpack ps args ds N Nreq (g : Callable R) s t u :
  compile_many repr ps args ds N Nreq g = Ok (s, t, u) →
  u = if Nreq =? 0 then unpack_many_optional g else unpack_many g.
Proof.
  unfold compile_many. intros H.
  repeat (apply bind_Ok in H as (? & _ & H)).
  destruct (Nreq =? 0); [destruct (negb _) |].
  - apply bind_Ok in H as (? & _ & H). by injection H.
  - by injection H.
  - by injection H.
Qed.

Lemma compile_many_case (sa : SettingArgs) (f : Handler R) :
  2 ≤ Nparams sa f →
  compilation sa f =
    (_ ← check_params (params sa) (setting_args sa f);
     compile_many repr (params sa) (setting_args sa f) (defaults f)
       (Nparams sa f) (Nrequired sa f) (target f)).
Proof.
  intros (a0 & a1 & l & Hargs)%Nparams_many.
  unfold compile. by rewrite Hargs.
Qed.

Lemma compile_one_case (sa : SettingArgs) (f : Handler R) (a0 : string) :
  setting_args sa f = [a0] →
  compilation sa f =
    (_ ← check_params (params sa) [a0];
     compile_one repr (params sa) a0 (defaults f) (Nrequired sa f) (target f)).
Proof. intros Hargs. unfold compile. by rewrite Hargs. Qed.

Lemma compile_zero_case (sa : SettingArgs) (f : Handler R) :
  setting_args sa f = [] →
  compilation sa f =
    (_ ← check_params (params sa) []; compile_zero (target f)).
Proof. intros Hargs. unfold compile. by rewrite Hargs. Qed.

Lemma unpack_of_many (sa : SettingArgs) (f : Handler R) (st : Setting LRType R) :
  registration sa f = Ok st → 2 ≤ Nparams sa f →
  unpack st = if Nrequired sa f =? 0 then unpack_many_optional (target f)
              else unpack_many (target f).
Proof.
  intros Hst%decorated_Ok HN. rewrite (compile_many_case _ _ HN) in Hst.
  apply bind_Ok in Hst as (? & _ & Hst). by eapply compile_many_unpack.
Qed.

(** A call of a plain method that fits its parameter list binds the
    missing trailing parameters to their defaults. *)
Lemma lifted_plain_call (f : Handler R) (pos : list Value) :
  _isGenerator f = false →
  (length (argnames f) - length (defaults_list f) ≤ length pos)%nat →
  (length pos ≤ length (argnames f))%nat →
  target f pos =
    Returned (body f (pos ++ drop (length pos - (length (argnames f)
                                     - length (defaults_list f)))%nat
                             (defaults_list f))).
Proof.
  intros Hgen Hlo Hhi. unfold lifted, call, bind_positional.
  rewrite Hgen. rewrite !bool_decide_eq_false_2 by lia. done.
Qed.

End Registration.

(** ** The cartesian product *)

(** A combination takes one candidate from each position, in the order of
    the positions. *)
Lemma elem_of_product {A} (lists : list (list A)) (g : list A) :
  g ∈ _product lists ↔ Forall2 (λ x l, x ∈ l) g lists.
Proof.
  revert g. induction lists as [|l0 rest IH]; intros g; simpl.
  - rewrite list_elem_of_singleton. split; [intros ->; constructor | by inversion 1].
  - rewrite list_elem_of_bind. split.
    + intros (h & (t & [= ->]%list_elem_of_singleton & Ht)%list_elem_of_bind & Hh).
      constructor; [done | by apply IH].
    + inversion 1 as [|h ? t ? Hh Ht]; subst.
      exists h. split; [| done]. apply list_elem_of_bind.
      exists t. split; [by apply list_elem_of_singleton | by apply IH].
Qed.

Lemma product_group_length {A} (lists : list (list A)) (g : list A) :
  g ∈ _product lists → length g = length lists.
Proof. intros Hg%elem_of_product. by eapply Forall2_length. Qed.

(** The combinations that start with one candidate [h]. *)
Lemma product_block {A} (h : A) (p : list (list A)) :
  (p ≫= λ t, [h :: t]) = (λ t, h :: t) <$> p.
Proof. induction p as [|t p IH]; [done |]. by rewrite bind_cons, IH. Qed.

(** The place of a combination in the result: the combinations that start
    with the candidate number [i] of the first position form the block
    number [i], and inside a block they are in the order of the
    combinations of the remaining positions. *)
Lemma product_lookup {A} (l0 : list A) (rest : list (list A))
    (i j : nat) (x : A) (t : list A) :
  l0 !! i = Some x → _product rest !! j = Some t →
  _product (l0 :: rest) !! (i * length (_product rest) + j)%nat
  = Some (x :: t).
Proof.
  intros Hi Hj. revert i Hi. induction l0 as [|x0 l0 IH]; intros i Hi; [done |].
  change (_product ((x0 :: l0) :: rest))
    with ((x0 :: l0) ≫= λ h, _product rest ≫= λ t, [h :: t]).
  rewrite bind_cons, product_block.
  pose proof (lookup_lt_Some _ _ _ Hj) as Hlt.
  destruct i as [|i]; simpl in Hi.
  - injection Hi as ->. rewrite lookup_app_l by (rewrite length_fmap; lia).
    simpl. by rewrite list_lookup_fmap, Hj.
  - rewrite lookup_app_r by (rewrite length_fmap; lia).
    rewrite length_fmap.
    replace (S i * length (_product rest) + j - length (_product rest))%nat
      with (i * length (_product rest) + j)%nat by lia.
    by apply IH.
Qed.

(** C7: the cartesian combination generator applied to no position lists
    yields exactly one combination, the empty one; applied to
    [[a, b], [c]] it yields [[a, c], [b, c]] in that order.  In general
    the elements of a combination follow the order of the positions, and
    the candidates of the first position are enumerated outermost: the
    combination made of candidate number [i] of the first position and of
    combination number [j] of the remaining positions is at place
    [i * (number of combinations of the remaining positions) + j]. *)
Theorem C7_product_base_and_order {A} (a b c : A) :
  _product (@nil (list A)) = [[]]
  ∧ _product [[a; b]; [c]] = [[a; c]; [b; c]]
  ∧ (∀ (lists : list (list A)) (g : list A),
       g ∈ _product lists → Forall2 (λ x l, x ∈ l) g lists)
  ∧ (∀ (l0 : list A) (rest : list (list A)) (i j : nat) (x : A) (t : list A),
       l0 !! i = Some x → _product rest !! j = Some t →
       _product (l0 :: rest) !! (i * length (_product rest) + j)%nat
       = Some (x :: t)).
Proof.
  split; [reflexivity |]. split; [reflexivity |]. split.
  - intros lists g. apply elem_of_product.
  - apply product_lookup.
Qed.

(** ** The dispatch adapter *)

Section AdapterClaims.
Context `{TB : TypeBridge} {R : Type}.
Variable repr : Value → string.
Variable inlineCallbacks : Callable R → Callable R.

Local Abbreviation registration := (decorated repr inlineCallbacks).
Local Abbreviation compilation := (compile repr inlineCallbacks).
Local Abbreviation target := (lifted inlineCallbacks).

(** C8: for a handler with at least two parameters the adapter spreads a
    tuple payload after the two context arguments (a plain method then
    binds the remaining trailing parameters to their defaults); when
    nothing is required it calls the handler with the context alone on the
    absence marker; every other payload is passed as the single
    argument. *)
Theorem C8_unpack_many_parameters (sa : SettingArgs) (f : Handler R)
    (st : Setting LRType R) (self c : Value) :
  registration sa f = Ok st →
  2 ≤ Nparams sa f →
  (∀ items, unpack st self c (VTuple items) = target f (self :: c :: items))
  ∧ (∀ items,
       _isGenerator f = false →
       (length (argnames f) - length (defaults_list f)
          ≤ length (self :: c :: items))%nat →
       (length (self :: c :: items) ≤ length (argnames f))%nat →
       unpack st self c (VTuple items) =
         Returned (body f ((self :: c :: items)
                     ++ drop (length (self :: c :: items)
                              - (length (argnames f)
                                 - length (defaults_list f)))%nat
                             (defaults_list f))))
  ∧ (Nrequired sa f = 0 → unpack st self c VNone = target f [self; c])
  ∧ (∀ data, data ≠ VNone → (∀ items, data ≠ VTuple items) →
       unpack st self c data = target f [self; c; data]).
Proof.
  intros Hst HN. rewrite (unpack_of_many _ _ _ _ _ Hst HN).
  assert (Htuple : ∀ items,
    (if Nrequired sa f =? 0 then unpack_many_optional (target f)
     else unpack_many (target f)) self c (VTuple items)
    = target f (self :: c :: items)).
  { intros items. by destruct (Nrequired sa f =? 0). }
  split; [exact Htuple |]. split; [| split].
  - intros items Hgen Hlo Hhi. rewrite Htuple.
    by apply lifted_plain_call.
  - intros ->. done.
  - intros data Hnone Htup.
    destruct (Nrequired sa f =? 0), data; try done.
    + by destruct (Htup items).
    + by destruct (Htup items).
Qed.

(** C10: for a handler with at least two parameters of which at least one
    is required, the adapter does not reject the absence marker: [None]
    is passed to the handler as its single argument after the context,
    like every other payload that is not a tuple. *)
Theorem C10_unpack_forwards_None (sa : SettingArgs) (f : Handler R)
    (st : Setting LRType R) (self c : Value) :
  registration sa f = Ok st →
  2 ≤ Nparams sa f →
  1 ≤ Nrequired sa f →
  unpack st self c VNone = target f [self; c; VNone]
  ∧ (∀ data, (∀ items, data ≠ VTuple items) →
       unpack st self c data = target f [self; c; data]).
Proof.
  intros Hst HN Hreq. rewrite (unpack_of_many _ _ _ _ _ Hst HN).
  destruct (Nrequired sa f =? 0) eqn:Hz; [lia |].
  split; [done |]. intros data Htup.
  destruct data; try done. by destruct (Htup items).
Qed.

(** C9, amended: for a handler without parameters the accepted-shapes
    table has exactly one entry, whose display string is the empty tag and
    whose descriptor is the one the parser gives for the empty tag; the
    adapter ignores the payload and calls the handler with the context
    arguments only. *)
Theorem C9_no_parameters (sa : SettingArgs) (f : Handler R)
    (st : Setting LRType R) :
  registration sa f = Ok st →
  Nparams sa f = 0 →
  accepts st = [""]
  ∧ (∃ t, parseTypeTag "" = Some t ∧ accepts_t st = [t])
  ∧ (∀ self c data, unpack st self c data = target f [self; c]).
Proof.
  intros Hst%decorated_Ok Hargs%Nparams_zero.
  rewrite (compile_zero_case _ _ _ _ Hargs) in Hst.
  apply bind_Ok in Hst as ([] & _ & Hst). unfold compile_zero in Hst.
  apply bind_Ok in Hst as (ts & Hts & [= <- <- <-]).
  simpl in Hts. unfold parse in Hts.
  destruct (parseTypeTag "") as [t|]; [| discriminate].
  injection Hts as <-. split; [done |]. split; [by exists t | done].
Qed.

End AdapterClaims.

Import SampleTypes Examples.

Lemma C8_unpack_many_parameters_witness :
  ∃ st, register (setting 3 [("axis", ["s"])]) move = Ok st
        ∧ unpack st self ctx (VTuple [VStr "x"; VInt 7])
          = Returned [self; ctx; VStr "x"; VInt 7; VInt 2].
Proof.
  eexists. split; [reflexivity |].
  refine (proj1 (proj2 (C8_unpack_many_parameters repr (λ g, g)
            (setting 3 [("axis", ["s"])]) move _ self ctx eq_refl _))
            [VStr "x"; VInt 7] eq_refl _ _).
  - vm_compute. discriminate.
  - vm_compute. lia.
  - vm_compute. lia.
Defined.

Lemma C10_unpack_forwards_None_witness :
  ∃ st, register (setting 4 []) put = Ok st
        ∧ unpack st self ctx VNone = call put [self; ctx; VNone].
Proof.
  eexists. split; [reflexivity |].
  refine (proj1 (C10_unpack_forwards_None repr (λ g, g)
            (setting 4 []) put _ self ctx eq_refl _ _)).
  - vm_compute. discriminate.
  - vm_compute. discriminate.
Defined.

Lemma C9_no_parameters_witness :
  ∃ st, register (setting 1 []) ping = Ok st
        ∧ accepts st = [""]
        ∧ unpack st self ctx (VInt 5) = Returned [self; ctx].
Proof.
  eexists. split; [reflexivity |].
  pose proof (C9_no_parameters repr (λ g, g) (setting 1 []) ping _
                eq_refl eq_refl) as (Hs & _ & Hu).
  split; [exact Hs | exact (Hu self ctx (VInt 5))].
Defined.

(** C9 as stated fails: the single entry of a handler without parameters
    is displayed as the empty string, not as "no arguments". *)
Lemma C9_display_counterexample :
  ∃ st, register (setting 1 []) ping = Ok st
        ∧ Nparams (setting 1 []) ping = 0
        ∧ accepts st = [""]
        ∧ accepts st ≠ ["no arguments"].
Proof.
  eexists. split; [reflexivity |]. split; [reflexivity |].
  split; [reflexivity |]. simpl. discriminate.
Qed.

(** ** The registration-time checks *)

Section Validation.
Context `{TB : TypeBridge} {R : Type}.
Variable repr : Value → string.
Variable inlineCallbacks : Callable R → Callable R.

Local Abbreviation registration := (decorated repr inlineCallbacks).
Local Abbreviation compilation := (compile repr inlineCallbacks).
Local Abbreviation target := (lifted inlineCallbacks).

Lemma parse_Ok (s : string) (t : LRType) :
  parse s = Ok t ↔ parseTypeTag s = Some t.
Proof.
  unfold parse. destruct (parseTypeTag s); simpl; split; congruence.
Qed.

Lemma parse_Raise (s : string) (e : Raised) :
  parse s = Raise e → e = TagSyntaxError s.
Proof. unfold parse. destruct (parseTypeTag s); simpl; congruence. Qed.

(** [T.LRNone() in types], in terms of the tags the types were parsed
    from. *)
Lemma has_LRNone_parsed (tags : list string) (types : list LRType) :
  mapM parse tags = Ok types →
  has_LRNone types = true ↔
  ∃ s t, s ∈ tags ∧ parseTypeTag s = Some t ∧ type_eq LRNone t = true.
Proof.
  rewrite mapM_Ok. induction 1 as [|s t tags types Hs _ IH]; simpl.
  - split; [discriminate | by intros (s & t & ?%elem_of_nil & _)].
  - apply parse_Ok in Hs. rewrite orb_true_iff, IH. split.
    + intros [Ht | (s' & t' & Hs' & Hp & Ht)].
      * exists s, t. split; [left | done].
      * exists s', t'. split; [by right | done].
    + intros (s' & t' & [-> | Hs']%elem_of_cons & Hp & Ht).
      * left. congruence.
      * right. by exists s', t'.
Qed.

Lemma check_params_Raise ps (args : list string) (e : Raised) :
  check_params ps args = Raise e → ∃ p, e = Exception (msg_invalid_param p).
Proof.
  unfold check_params. intros (p & _ & Hp)%for_each_Raise.
  destruct (bool_decide (p ∈ args)); [discriminate |].
  exists p. congruence.
Qed.

Lemma check_params_Ok ps (args : list string) :
  check_params ps args = Ok () ↔ ∀ p, is_Some (ps !! p) → p ∈ args.
Proof.
  unfold check_params. rewrite for_each_Ok. split.
  - intros Hall p [tags Hp].
    assert (Hin : p ∈ (map_to_list ps).*1).
    { apply list_elem_of_fmap. exists (p, tags).
      split; [done | by apply elem_of_map_to_list]. }
    specialize (Hall p Hin). by case_bool_decide.
  - intros Hall p ([p' tags] & -> & Hp%elem_of_map_to_list)%list_elem_of_fmap.
    simpl. rewrite bool_decide_eq_true_2; [done |]. apply Hall. by exists tags.
Qed.

(** What the rule of lines 106-115 raises. *)
Lemma check_first_arg_Raise ps (a0 : string) (Nreq : Z) (e : Raised) :
  check_first_arg ps a0 Nreq = Raise e →
  Nreq ≤ 1 ∧
  ((ps !! a0 = None ∧ e = Exception msg_must_specify)
   ∨ ∃ tags s, ps !! a0 = Some tags ∧ s ∈ tags ∧
       ((parseTypeTag s = None ∧ e = TagSyntaxError s)
        ∨ ∃ t, parseTypeTag s = Some t
               ∧ is_LRAny t || is_LRCluster t = true
               ∧ e = Exception msg_cluster_or_any)).
Proof.
  unfold check_first_arg. destruct (Nreq <=? 1) eqn:Hreq; [| discriminate].
  intros He. split; [lia |]. destruct (ps !! a0) as [tags|].
  - right. apply for_each_Raise in He as (s & Hs & He).
    exists tags, s. split; [done |]. split; [done |].
    apply bind_Raise in He as [He | (t & Ht & He)].
    + left. unfold parse in He. destruct (parseTypeTag s); [discriminate |].
      simpl in He. split; congruence.
    + right. exists t. apply parse_Ok in Ht.
      destruct (is_LRAny t || is_LRCluster t); [| discriminate].
      repeat split; congruence.
  - left. split; congruence.
Qed.

(** The rule fires on a first parameter without declared types, and on a
    declared tag that parses to the wildcard or to a cluster. *)
Lemma check_first_arg_fails ps (a0 : string) (Nreq : Z) :
  Nreq ≤ 1 →
  ps !! a0 = None
  ∨ (∃ tags s t, ps !! a0 = Some tags ∧ s ∈ tags ∧ parseTypeTag s = Some t
                 ∧ is_LRAny t || is_LRCluster t = true) →
  fails (check_first_arg ps a0 Nreq).
Proof.
  intros Hreq Hbad. unfold check_first_arg.
  rewrite (proj2 (Z.leb_le _ _) Hreq).
  destruct Hbad as [-> | (tags & s & t & -> & Hs & Ht & Hbad)].
  - apply fails_raise.
  - apply (for_each_fails _ _ s Hs).
    rewrite (proj2 (parse_Ok _ _) Ht). simpl. rewrite Hbad. apply fails_raise.
Qed.

Lemma check_empty_first_Raise ps (a0 : string) (Nreq : Z) (e : Raised) :
  check_empty_first ps a0 Nreq = Raise e →
  (∃ s, e = TagSyntaxError s)
  ∨ (1 < Nreq ∧ e = Exception msg_empty_many_required).
Proof.
  unfold check_empty_first.
  intros [(s & _ & He%parse_Raise)%mapM_Raise | (ts & _ & He)]%bind_Raise.
  - left. by exists s.
  - right. destruct (1 <? Nreq) eqn:Hreq; [| discriminate].
    destruct (has_LRNone ts); [| discriminate].
    simpl in He. split; [lia | congruence].
Qed.

Lemma check_empty_first_fails ps (a0 : string) (Nreq : Z)
    (tags : list string) (s : string) (t : LRType) :
  1 < Nreq → ps !! a0 = Some tags → s ∈ tags →
  parseTypeTag s = Some t → type_eq LRNone t = true →
  fails (check_empty_first ps a0 Nreq).
Proof.
  intros Hreq Htags Hs Ht Hnone. unfold check_empty_first.
  rewrite Htags. simpl. apply fails_bind. intros ts Hts.
  rewrite (proj2 (Z.ltb_lt _ _) Hreq).
  rewrite (proj2 (has_LRNone_parsed _ _ Hts)); [apply fails_raise |].
  by exists s, t.
Qed.

Lemma check_empty_rest_Raise ps (rest : list string) (e : Raised) :
  check_empty_rest ps rest = Raise e →
  (∃ s, e = TagSyntaxError s) ∨ e = Exception msg_empty_after_first.
Proof.
  unfold check_empty_rest. intros (p & _ & He)%for_each_Raise.
  apply bind_Raise in He as [(s & _ & He%parse_Raise)%mapM_Raise | (ts & _ & He)].
  - left. by exists s.
  - right. destruct (has_LRNone ts); [| discriminate]. congruence.
Qed.

Lemma check_empty_rest_fails ps (rest : list string) (p : string)
    (tags : list string) (s : string) (t : LRType) :
  p ∈ rest → ps !! p = Some tags → s ∈ tags →
  parseTypeTag s = Some t → type_eq LRNone t = true →
  fails (check_empty_rest ps rest).
Proof.
  intros Hp Htags Hs Ht Hnone. unfold check_empty_rest.
  apply (for_each_fails _ _ p Hp). rewrite Htags. simpl.
  apply fails_bind. intros ts Hts.
  rewrite (proj2 (has_LRNone_parsed _ _ Hts)); [apply fails_raise |].
  by exists s, t.
Qed.

Lemma defaults_item_Raise (ds : option (list Value)) (i : Z) (e : Raised) :
  defaults_item ds i = Raise e → low_level e.
Proof.
  unfold defaults_item. destruct ds as [l|]; [| intros [= <-]; constructor].
  destruct (Py.getitem l i); simpl; [discriminate | intros [= <-]; constructor].
Qed.

Lemma from_option_Raise {A} (e0 e : Raised) (o : option A) :
  from_option e0 o = Raise e → e = e0.
Proof. destruct o; simpl; congruence. Qed.

Lemma defaults_annotation_Raise (args : list string)
    (ds : option (list Value)) (N glen : Z) (e : Raised) :
  defaults_annotation repr args ds N glen = Raise e → low_level e.
Proof.
  unfold defaults_annotation.
  intros [(n & _ & He)%mapM_Raise | (? & _ & [=])]%bind_Raise.
  apply bind_Raise in He as [->%from_option_Raise | (a & _ & He)];
    [constructor |].
  apply bind_Raise in He as [He | (d & _ & [=])].
  by eapply defaults_item_Raise.
Qed.

(** What the loop body of lines 143-159 raises. *)
Lemma render_group_Raise (args : list string) (ds : option (list Value))
    (N : Z) (group : list string) (e : Raised) :
  render_group repr args ds N group = Raise e →
  low_level e ∨ e = Exception msg_cluster_first.
Proof.
  unfold render_group. intros [He | ([t s] & _ & He)]%bind_Raise.
  - destruct (1 <? Py.len group).
    + apply bind_Raise in He as [(s & _ & ->%parse_Raise)%mapM_Raise
                                | (ts & _ & [=])].
      left. constructor.
    + apply bind_Raise in He as [->%from_option_Raise | (g0 & _ & He)];
        [left; constructor |].
      apply bind_Raise in He as [->%parse_Raise | (t & _ & He)];
        [left; constructor |].
      destruct (is_LRCluster t); [right; congruence |].
      apply bind_Raise in He as [->%from_option_Raise | (a0 & _ & [=])].
      left. constructor.
  - destruct (Py.len group <? N); [| discriminate].
    apply bind_Raise in He as [He%defaults_annotation_Raise | (? & _ & [=])].
    by left.
Qed.

(** A group of one tag that parses to a cluster is rejected. *)
Lemma render_group_cluster_fails (args : list string)
    (ds : option (list Value)) (N : Z) (s : string) (t : LRType) :
  parseTypeTag s = Some t → is_LRCluster t = true →
  fails (render_group repr args ds N [s]).
Proof.
  intros Ht Hc. unfold render_group. apply fails_bind_l. simpl.
  rewrite (proj2 (parse_Ok _ _) Ht). simpl. rewrite Hc. apply fails_raise.
Qed.

(** Every exception of the branch for two or more parameters. *)
Lemma compile_many_Raise ps (args : list string) (ds : option (list Value))
    (N Nreq : Z) (g : Callable R) (e : Raised) :
  compile_many repr ps args ds N Nreq g = Raise e →
  low_level e
  ∨ (∃ a0, args !! 0%nat = Some a0 ∧ check_first_arg ps a0 Nreq = Raise e)
  ∨ (1 < Nreq ∧ e = Exception msg_empty_many_required)
  ∨ e = Exception msg_empty_after_first
  ∨ e = Exception msg_cluster_first.
Proof.
  unfold compile_many.
  intros [->%from_option_Raise | (a0 & Ha0 & He)]%bind_Raise;
    [left; constructor |].
  apply bind_Raise in He as [He | ([] & _ & He)].
  { right; left. exists a0. split; [| done].
    change (Py.getitem args 0) with (args !! 0%nat) in Ha0.
    by destruct (args !! 0%nat); simplify_eq/=. }
  apply bind_Raise in He as [He | ([] & _ & He)].
  { apply check_empty_first_Raise in He as [[s ->] | He]; [left; constructor |].
    by right; right; left. }
  apply bind_Raise in He as [He | ([] & _ & He)].
  { apply check_empty_rest_Raise in He as [[s ->] | He]; [left; constructor |].
    by right; right; right; left. }
  apply bind_Raise in He as [He | (rendered & _ & He)].
  { apply mapM_Raise in He as (group & _ & [He | He]%render_group_Raise);
      [by left | by right; right; right; right]. }
  destruct (Nreq =? 0); [| discriminate].
  destruct (negb _); [| discriminate].
  apply bind_Raise in He as [He | (? & _ & [=])].
  unfold all_defaults_entry in He. destruct ds; [discriminate |].
  injection He as <-. left. constructor.
Qed.

Lemma compile_one_Raise ps (a0 : string) (ds : option (list Value))
    (Nreq : Z) (g : Callable R) (e : Raised) :
  compile_one repr ps a0 ds Nreq g = Raise e → low_level e.
Proof.
  unfold compile_one.
  intros [(s & _ & ->%parse_Raise)%mapM_Raise | (ts & _ & He)]%bind_Raise;
    [constructor |].
  destruct (Nreq =? 0); [| discriminate].
  destruct (_ && _); [| discriminate].
  apply bind_Raise in He as [He | (? & _ & [=])].
  by eapply defaults_item_Raise.
Qed.

Lemma compile_zero_Raise (g : Callable R) (e : Raised) :
  compile_zero g = Raise e → low_level e.
Proof.
  unfold compile_zero.
  intros [(s & _ & ->%parse_Raise)%mapM_Raise | (ts & _ & [=])]%bind_Raise.
  constructor.
Qed.

(** Every exception of a registration: an unknown keyword, a low-level
    error, or one of the rules of the branch for two or more parameters. *)
Lemma registration_Raise (sa : SettingArgs) (f : Handler R) (e : Raised) :
  registration sa f = Raise e →
  (∃ p, e = Exception (msg_invalid_param p))
  ∨ low_level e
  ∨ (2 ≤ Nparams sa f ∧
     ((∃ a0, setting_args sa f !! 0%nat = Some a0
             ∧ check_first_arg (params sa) a0 (Nrequired sa f) = Raise e)
      ∨ (1 < Nrequired sa f ∧ e = Exception msg_empty_many_required)
      ∨ e = Exception msg_empty_after_first
      ∨ e = Exception msg_cluster_first)).
Proof.
  intros He%decorated_Raise. unfold compile in He.
  apply bind_Raise in He as [He%check_params_Raise | ([] & _ & He)];
    [by left |].
  right. destruct (setting_args sa f) as [|a0 [|a1 l]] eqn:Hargs.
  - left. by eapply compile_zero_Raise.
  - left. by eapply compile_one_Raise.
  - assert (HN : 2 ≤ Nparams sa f).
    { apply Nparams_many. by exists a0, a1, l. }
    rewrite <- Hargs in He |- *.
    apply compile_many_Raise in He as [He | He]; [by left |].
    right. by split.
Qed.

End Validation.

(** ** The messages are pairwise distinct *)

Lemma must_specify_not_invalid_param (p : string) :
  Exception msg_must_specify ≠ Exception (msg_invalid_param p).
Proof. discriminate. Qed.

Lemma cluster_or_any_not_invalid_param (p : string) :
  Exception msg_cluster_or_any ≠ Exception (msg_invalid_param p).
Proof. discriminate. Qed.

Lemma cluster_first_not_invalid_param (p : string) :
  Exception msg_cluster_first ≠ Exception (msg_invalid_param p).
Proof. discriminate. Qed.

(** Both messages start with a quote; they differ in how they end. *)
Lemma empty_many_required_not_invalid_param (p : string) :
  Exception msg_empty_many_required ≠ Exception (msg_invalid_param p).
Proof.
  unfold msg_invalid_param, msg_empty_many_required. simpl.
  intros [= H]. revert H.
  repeat (destruct p as [|? p]; simpl; [discriminate | intros [= _ H]; revert H]).
Qed.

(** ** Registration-time errors *)

Section ErrorClaims.
Context `{TB : TypeBridge} {R : Type}.
Variable repr : Value → string.
Variable inlineCallbacks : Callable R → Callable R.

Local Abbreviation registration := (decorated repr inlineCallbacks).
Local Abbreviation compilation := (compile repr inlineCallbacks).
Local Abbreviation target := (lifted inlineCallbacks).

(** The branch for two or more parameters fails as soon as one of its
    steps does. *)
Lemma registration_many_fails (sa : SettingArgs) (f : Handler R) :
  2 ≤ Nparams sa f →
  (∀ a0 rest, setting_args sa f = a0 :: rest →
     fails (check_first_arg (params sa) a0 (Nrequired sa f))
     ∨ fails (check_empty_first (params sa) a0 (Nrequired sa f))
     ∨ fails (check_empty_rest (params sa) rest)
     ∨ fails (mapM (render_group repr (setting_args sa f) (defaults f)
                      (Nparams sa f))
                (build_groups (params sa) (setting_args sa f)
                   (Nparams sa f) (Nrequired sa f)))) →
  fails (registration sa f).
Proof.
  intros HN Hstep. apply decorated_fails. rewrite (compile_many_case _ _ _ _ HN).
  apply fails_bind. intros [] _. unfold compile_many.
  destruct (proj1 (Nparams_many _ _) HN) as (a0 & a1 & l & Hargs).
  specialize (Hstep a0 (a1 :: l) Hargs). rewrite Hargs in Hstep |- *.
  simpl. destruct Hstep as [H | [H | [H | H]]].
  - by apply fails_bind_l.
  - apply fails_bind. intros [] _. by apply fails_bind_l.
  - do 2 (apply fails_bind; intros [] _). by apply fails_bind_l.
  - do 3 (apply fails_bind; intros [] _). by apply fails_bind_l.
Qed.

(** C6: with at most one required parameter and at least two parameters,
    registration fails unless the first parameter has a declared list of
    types none of which parses to the wildcard or to a cluster; with such
    a list, registration does not fail on this rule. *)
Theorem C6_first_argument_rule (sa : SettingArgs) (f : Handler R) :
  2 ≤ Nparams sa f →
  Nrequired sa f ≤ 1 →
  (¬ first_types_concrete sa f → fails (registration sa f))
  ∧ (first_types_concrete sa f →
       registration sa f ≠ Raise (Exception msg_must_specify)
       ∧ registration sa f ≠ Raise (Exception msg_cluster_or_any)).
Proof.
  intros HN Hreq. split.
  - intros Hnot. apply registration_many_fails; [done |].
    intros a0 rest Hargs. left.
    destruct (check_first_arg (params sa) a0 (Nrequired sa f)) as [[]|e] eqn:Hc;
      [| apply fails_raise].
    exfalso. apply Hnot. unfold check_first_arg in Hc.
    rewrite (proj2 (Z.leb_le _ _) Hreq) in Hc.
    destruct (params sa !! a0) as [tags|] eqn:Htags; [| discriminate].
    exists tags. split.
    { unfold declared. rewrite Hargs. simpl. done. }
    intros s t Hs Ht. rewrite for_each_Ok in Hc. specialize (Hc s Hs).
    rewrite (proj2 (parse_Ok _ _) Ht) in Hc. simpl in Hc.
    by destruct (is_LRAny t || is_LRCluster t).
  - intros (tags & Hdecl & Hgood).
    assert (Hrule : ∀ e a0,
      setting_args sa f !! 0%nat = Some a0 →
      check_first_arg (params sa) a0 (Nrequired sa f) = Raise e →
      ∃ s, e = TagSyntaxError s).
    { intros e a0 Ha0 [_ Hc]%check_first_arg_Raise.
      unfold declared in Hdecl. rewrite Ha0 in Hdecl. simpl in Hdecl.
      destruct Hc as [[Hnone _] | (tags' & s & Htags' & Hs & Hc)];
        [congruence |].
      destruct Hc as [[_ ->] | (t & Ht & Hbad & _)]; [by exists s |].
      assert (tags' = tags) as -> by congruence.
      rewrite (Hgood s t Hs Ht) in Hbad. discriminate. }
    split; intros He%registration_Raise.
    + destruct He as [[p Hp] | [He | (_ & [(a0 & Ha0 & Hc) | He])]].
      * by eapply must_specify_not_invalid_param.
      * inversion He.
      * destruct (Hrule _ _ Ha0 Hc) as [s [=]].
      * destruct He as [[_ [=]] | [[=] | [=]]].
    + destruct He as [[p Hp] | [He | (_ & [(a0 & Ha0 & Hc) | He])]].
      * by eapply cluster_or_any_not_invalid_param.
      * inversion He.
      * destruct (Hrule _ _ Ha0 Hc) as [s [=]].
      * destruct He as [[_ [=]] | [[=] | [=]]].
Qed.

(** C3, amended: registration fails when the no-argument descriptor is
    declared for the first parameter and more than one argument is
    required, and whenever it is declared for a parameter other than the
    first; with at most one required argument its presence on the first
    parameter is not an error of this rule. *)
Theorem C3_empty_tag_rules (sa : SettingArgs) (f : Handler R) (j : nat) :
  declares_none sa f j →
  (j ≠ 0%nat ∨ 1 < Nrequired sa f → fails (registration sa f))
  ∧ (j = 0%nat → Nrequired sa f ≤ 1 →
       registration sa f ≠ Raise (Exception msg_empty_many_required)).
Proof.
  intros (tags & s & t & Hdecl & Hs & Ht & Hnone).
  unfold declared in Hdecl.
  destruct (setting_args sa f !! j) as [p|] eqn:Hp; [| discriminate].
  simpl in Hdecl. split.
  - intros Hcase.
    assert (HN : 2 ≤ Nparams sa f).
    { destruct Hcase as [Hj | Hreq].
      - apply lookup_lt_Some in Hp. unfold Nparams, Py.len. lia.
      - pose proof (Nrequired_le_Nparams sa f). lia. }
    apply registration_many_fails; [done |]. intros a0 rest Hargs.
    rewrite Hargs in Hp. destruct j as [|j]; simpl in Hp.
    + destruct Hcase as [Hj | Hreq]; [done |]. injection Hp as ->.
      right; left. by eapply check_empty_first_fails.
    + right; right; left.
      eapply check_empty_rest_fails; [| done..].
      by eapply list_elem_of_lookup_2.
  - intros -> Hreq He%registration_Raise.
    destruct He as [[p' Hp'] | [He | (_ & [(a0 & _ & Hc) | He])]].
    + by eapply empty_many_required_not_invalid_param.
    + inversion He.
    + apply check_first_arg_Raise in Hc as [_ Hc].
      destruct Hc as [[_ [=]] | (? & ? & _ & _ & [[_ [=]] | (? & _ & _ & [=])])].
    + destruct He as [[Hlt _] | [[=] | [=]]]. lia.
Qed.

(** Tags that all parse are parsed without an exception. *)
Lemma mapM_parse_total (tags : list string) :
  (∀ s, s ∈ tags → is_Some (parseTypeTag s)) → ∃ ts, mapM parse tags = Ok ts.
Proof.
  intros Hall. destruct (mapM parse tags) as [ts|e] eqn:Hts; [by exists ts |].
  apply mapM_Raise in Hts as (s & Hs & He). destruct (Hall s Hs) as [t Ht].
  rewrite (proj2 (parse_Ok _ _) Ht) in He. discriminate.
Qed.

(** With one parameter, valid keywords and declared tags that parse, the
    table is compiled: it has every declared tag with its descriptor. *)
Lemma compile_one_parameter_succeeds (sa : SettingArgs) (f : Handler R)
    (s : string) (t : LRType) :
  Nparams sa f = 1 →
  (∀ p, is_Some (params sa !! p) → p ∈ setting_args sa f) →
  (∀ s', s' ∈ declared_first sa f → is_Some (parseTypeTag s')) →
  s ∈ declared_first sa f → parseTypeTag s = Some t →
  ∃ ss ts u, compilation sa f = Ok (ss, ts, u) ∧ s ∈ ss ∧ t ∈ ts.
Proof.
  intros HN Hkeys Hparse Hs Ht.
  destruct (proj1 (Nparams_one _ _) HN) as [a0 Hargs].
  assert (Hfirst : declared_first sa f = default [] (params sa !! a0)).
  { unfold declared_first, declared. by rewrite Hargs. }
  rewrite Hfirst in Hparse, Hs.
  rewrite (compile_one_case _ _ _ _ _ Hargs).
  rewrite Hargs in Hkeys. rewrite (proj2 (check_params_Ok _ _) Hkeys). simpl.
  destruct (mapM_parse_total _ Hparse) as [ts Hts].
  assert (Hin : t ∈ ts).
  { apply mapM_Ok in Hts. apply list_elem_of_lookup_1 in Hs as [i Hi].
    destruct (Forall2_lookup_l _ _ _ _ _ Hts Hi) as (t' & Hi' & Ht').
    apply parse_Ok in Ht'. assert (t' = t) as -> by congruence.
    by eapply list_elem_of_lookup_2. }
  unfold compile_one. rewrite Hts. simpl.
  destruct (Nrequired sa f =? 0) eqn:Hreq; [| by eexists _, _, _].
  destruct (negb (Py.len ts =? 0) && negb (has_LRNone ts));
    [| by eexists _, _, _].
  apply Z.eqb_eq in Hreq.
  unfold Nrequired, Nparams, Noptional, Py.len in Hreq.
  rewrite Hargs in Hreq. unfold defaults_item.
  destruct (defaults f) as [[|d l]|]; simpl in Hreq; try lia.
  change (Py.getitem (d :: l) 0) with (Some d). simpl.
  eexists _, _, _. split; [done |].
  split; apply elem_of_app; by left.
Qed.

(** C5, amended: for a handler with at least two parameters, an accepted
    group of one tag that parses to a cluster makes registration fail; a
    handler with exactly one parameter is not checked: a cluster declared
    for it never raises one of the cluster errors, and when the keywords
    name the parameter and the declared tags parse, the registration
    succeeds and advertises the cluster tag with its cluster descriptor. *)
Theorem C5_single_cluster_group (sa : SettingArgs) (f : Handler R)
    (s : string) (t : LRType) :
  parseTypeTag s = Some t →
  is_LRCluster t = true →
  (2 ≤ Nparams sa f →
   [s] ∈ build_groups (params sa) (setting_args sa f)
          (Nparams sa f) (Nrequired sa f) →
   fails (registration sa f))
  ∧ (Nparams sa f = 1 →
     s ∈ declared_first sa f →
     (registration sa f ≠ Raise (Exception msg_cluster_first)
      ∧ registration sa f ≠ Raise (Exception msg_cluster_or_any))
     ∧ ((∀ p, is_Some (params sa !! p) → p ∈ setting_args sa f) →
        (∀ s', s' ∈ declared_first sa f → is_Some (parseTypeTag s')) →
        ∃ st, registration sa f = Ok st
              ∧ s ∈ accepts st ∧ t ∈ accepts_t st
              ∧ is_LRCluster t = true)).
Proof.
  intros Ht Hc. split.
  - intros HN Hgroup. apply registration_many_fails; [done |].
    intros a0 rest _. right; right; right.
    apply (mapM_fails _ _ [s] Hgroup).
    by eapply render_group_cluster_fails.
  - intros HN Hs. split.
    + split; intros He%registration_Raise.
      * destruct He as [[p Hp] | [He | [HN' _]]]; [| inversion He | lia].
        by eapply cluster_first_not_invalid_param.
      * destruct He as [[p Hp] | [He | [HN' _]]]; [| inversion He | lia].
        by eapply cluster_or_any_not_invalid_param.
    + intros Hkeys Hparse.
      destruct (compile_one_parameter_succeeds sa f s t HN Hkeys Hparse Hs Ht)
        as (ss & ts & u & Hcomp & Hss & Hts).
      unfold decorated. rewrite Hcomp. simpl. eexists. split; [done |].
      simpl. done.
Qed.

End ErrorClaims.

(** ** The accepted-shapes table *)

Section TableClaims.
Context `{TB : TypeBridge} {R : Type}.
Variable repr : Value → string.
Variable inlineCallbacks : Callable R → Callable R.

Local Abbreviation registration := (decorated repr inlineCallbacks).
Local Abbreviation compilation := (compile repr inlineCallbacks).
Local Abbreviation target := (lifted inlineCallbacks).

(** The table of a handler with one parameter: the declared tags, and one
    more entry when the parameter is optional, tags were declared and none
    of them is the no-argument descriptor. *)
Lemma compile_one_shape ps (a0 : string) (ds : option (list Value))
    (Nreq : Z) (g : Callable R) s t u :
  compile_one repr ps a0 ds Nreq g = Ok (s, t, u) →
  ∃ ts, mapM parse (default [] (ps !! a0)) = Ok ts ∧
    if (Nreq =? 0) && (negb (Py.len ts =? 0) && negb (has_LRNone ts))
    then ∃ d0, defaults_item ds 0 = Ok d0
               ∧ s = default [] (ps !! a0)
                       ++ [defaults_note (a0 +:+ "=" +:+ repr d0)]
               ∧ t = ts ++ [LRNone]
    else s = default [] (ps !! a0) ∧ t = ts.
Proof.
  unfold compile_one. intros (ts & Hts & H)%bind_Ok. exists ts. split; [done |].
  destruct (Nreq =? 0); simpl; [| by injection H as <- <- _].
  destruct (negb (Py.len ts =? 0) && negb (has_LRNone ts));
    [| by injection H as <- <- _].
  apply bind_Ok in H as (d0 & Hd0 & [= <- <- _]). by exists d0.
Qed.

(** The table of a handler with two or more parameters: the rendered
    groups, and the all-defaults entry when nothing is required and no
    group has the no-argument descriptor. *)
Lemma compile_many_shape ps (args : list string) (ds : option (list Value))
    (N Nreq : Z) (g : Callable R) s t u :
  compile_many repr ps args ds N Nreq g = Ok (s, t, u) →
  ∃ rendered,
    mapM (render_group repr args ds N) (build_groups ps args N Nreq)
      = Ok rendered ∧
    if (Nreq =? 0) && negb (has_LRNone rendered.*1)
    then ∃ entry, all_defaults_entry repr args ds = Ok entry
                  ∧ s = rendered.*2 ++ [entry]
                  ∧ t = rendered.*1 ++ [LRNone]
    else s = rendered.*2 ∧ t = rendered.*1.
Proof.
  unfold compile_many. intros H.
  do 4 (apply bind_Ok in H as (? & _ & H)).
  apply bind_Ok in H as (rendered & Hr & H). exists rendered. split; [done |].
  destruct (Nreq =? 0); simpl; [| by injection H as <- <- _].
  destruct (negb (has_LRNone rendered.*1)); [| by injection H as <- <- _].
  apply bind_Ok in H as (entry & He & [= <- <- _]). by exists entry.
Qed.

Lemma declared_first_one (sa : SettingArgs) (f : Handler R) (a0 : string)
    (rest : list string) :
  setting_args sa f = a0 :: rest →
  declared_first sa f = default [] (params sa !! a0).
Proof. intros Hargs. unfold declared_first, declared. by rewrite Hargs. Qed.

Lemma setting_args_length (sa : SettingArgs) (f : Handler R) :
  (length (setting_args sa f) ≤ length (argnames f))%nat.
Proof.
  unfold setting_args, Py.slice_from.
  destruct (lr_num_params sa <? 0); rewrite length_drop; lia.
Qed.


(** C2, amended: after a successful registration the list of accepted
    strings is not empty for a handler without parameters, and for a
    handler with two or more parameters whose [Nrequired], the number of
    parameters minus the number of defaults as line 70 computes it, is 0;
    for a handler with two or more parameters and another [Nrequired] it
    is not empty exactly when at least one group is built; for a handler
    with one parameter it is not empty exactly when a non-empty list of
    types was declared for the parameter. *)
Theorem C2_accepted_strings_nonempty (sa : SettingArgs) (f : Handler R)
    (st : Setting LRType R) :
  registration sa f = Ok st →
  (Nparams sa f = 0 → accepts st ≠ [])
  ∧ (Nparams sa f = 1 → ((accepts st ≠ []) ↔ (declared_first sa f ≠ [])))
  ∧ (2 ≤ Nparams sa f → Nrequired sa f = 0 → accepts st ≠ [])
  ∧ (2 ≤ Nparams sa f → Nrequired sa f ≠ 0 →
     ((accepts st ≠ []) ↔ (groups_of sa f ≠ []))).
Proof.
  intros Hst%decorated_Ok. split; [| split; [| split]].
  - intros Hargs%Nparams_zero.
    rewrite (compile_zero_case _ _ _ _ Hargs) in Hst.
    apply bind_Ok in Hst as ([] & _ & Hst). unfold compile_zero in Hst.
    apply bind_Ok in Hst as (ts & _ & [= <- _ _]). done.
  - intros [a0 Hargs]%Nparams_one.
    rewrite (compile_one_case _ _ _ _ _ Hargs) in Hst.
    apply bind_Ok in Hst as ([] & _ & Hst).
    apply compile_one_shape in Hst as (ts & Hts & Hshape).
    rewrite <- (declared_first_one _ _ _ _ Hargs) in Hts, Hshape.
    apply mapM_length in Hts.
    destruct (Nrequired sa f =? 0); simpl in Hshape;
      [destruct (Py.len ts =? 0) eqn:Hlen; simpl in Hshape;
       [| destruct (has_LRNone ts); simpl in Hshape] |].
    + destruct Hshape as [-> _]. done.
    + destruct Hshape as [-> _]. done.
    + destruct Hshape as (d0 & _ & -> & _).
      apply Z.eqb_neq in Hlen. unfold Py.len in Hlen.
      split; intros _; [| by destruct (declared_first sa f)].
      intros Hnil. rewrite Hnil in Hts. simpl in Hts. lia.
    + destruct Hshape as [-> _]. done.
  - intros HN Hreq. rewrite (compile_many_case _ _ _ _ HN) in Hst.
    apply bind_Ok in Hst as ([] & _ & Hst).
    apply compile_many_shape in Hst as (rendered & _ & Hshape).
    rewrite Hreq in Hshape. simpl in Hshape.
    destruct (has_LRNone rendered.*1) eqn:Hhas; simpl in Hshape.
    + destruct Hshape as [-> _]. destruct rendered; [discriminate | done].
    + destruct Hshape as (entry & _ & -> & _). by destruct (rendered.*2).
  - intros HN Hreq. rewrite (compile_many_case _ _ _ _ HN) in Hst.
    apply bind_Ok in Hst as ([] & _ & Hst).
    apply compile_many_shape in Hst as (rendered & Hr%mapM_length & Hshape).
    fold (groups_of sa f) in Hr.
    apply Z.eqb_neq in Hreq. rewrite Hreq in Hshape. simpl in Hshape.
    destruct Hshape as [-> _].
    destruct rendered, (groups_of sa f); simpl in *; try done; lia.
Qed.

End TableClaims.

(** ** Which default belongs to which parameter *)

(** When the context parameters have no defaults, the declared default of
    [args[n]] is [defaults[n - Nrequired]].  Line 155 subscripts with
    [n - len(group)] instead, which is the same only for the groups of
    length [Nrequired]. *)
Lemma declared_default_index {R} (sa : SettingArgs) (f : Handler R) (n : nat) :
  0 ≤ Nrequired sa f →
  Nrequired sa f ≤ Z.of_nat n →
  param_default sa f n
  = defaults_list f !! Z.to_nat (Z.of_nat n - Nrequired sa f).
Proof.
  unfold Nrequired, Nparams, Noptional, param_default, default_of, defaults_list.
  pose proof (setting_args_length sa f) as Hle. unfold Py.len.
  destruct (defaults f) as [l|]; simpl; intros Hreq Hn.
  - rewrite bool_decide_eq_true_2 by lia. f_equal. lia.
  - rewrite !lookup_nil. by case_bool_decide.
Qed.

Lemma defaults_item_declared {R} (sa : SettingArgs) (f : Handler R) (n : nat)
    (d : Value) :
  0 ≤ Nrequired sa f →
  Nrequired sa f ≤ Z.of_nat n →
  param_default sa f n = Some d →
  defaults_item (defaults f) (Z.of_nat n - Nrequired sa f) = Ok d.
Proof.
  intros Hreq Hn. rewrite (declared_default_index _ _ _ Hreq Hn).
  unfold defaults_item, defaults_list, Py.getitem.
  destruct (defaults f) as [l|]; simpl; [| by rewrite lookup_nil].
  destruct (Z.ltb_spec (Z.of_nat n - Nrequired sa f) 0) as [|_]; [lia |].
  by intros ->.
Qed.

(** ** The claims on concrete settings *)

(** [scan(self, c, start, count=10)] declared with [start=['s']] and
    [count=['i']]: one shape for both arguments, one for [start] alone. *)
Example scan_shapes :
  advertised (setting 7 [("start", ["s"]); ("count", ["i"])]) scan
  = Ok (["(s{start}, i{count})"; "s{start}: defaults [count=10]"],
        [TCluster [TStr; TInt]; TStr]).
Proof. reflexivity. Qed.

(** Three required parameters and the empty tag on the first one. *)
Example empty_tag_three_required :
  register (setting 8 [("a", [""; "s"])])
           (method "f" ["self"; "c"; "a"; "b"; "d"] None)
  = Raise (Exception msg_empty_many_required).
Proof. reflexivity. Qed.

(** Two optional parameters and the wildcard on the first one. *)
Example wildcard_first_of_two_optional :
  register (setting 9 [("lo", ["?"])]) window
  = Raise (Exception msg_cluster_or_any).
Proof. reflexivity. Qed.

(** A keyword that names no parameter. *)
Example unknown_keyword :
  register (setting 10 [("hi", ["i"]); ("step", ["i"])]) window
  = Raise (Exception "'step' is not a valid parameter.").
Proof. reflexivity. Qed.

(** The three payload shapes on [window(self, c, lo=0, hi=5)]. *)
Example window_dispatch :
  ∃ st, register (setting 11 [("lo", ["i"])]) window = Ok st
        ∧ unpack st self ctx VNone = Returned [self; ctx; VInt 0; VInt 5]
        ∧ unpack st self ctx (VInt 3) = Returned [self; ctx; VInt 3; VInt 5]
        ∧ unpack st self ctx (VTuple [VInt 3; VInt 4])
          = Returned [self; ctx; VInt 3; VInt 4]
        ∧ unpack st self ctx (VTuple [VInt 3; VInt 4; VInt 9]) = ArgumentError.
Proof. eexists. repeat split; reflexivity. Qed.

Lemma C7_product_base_and_order_witness :
  _product [["a"; "b"]; ["c"; "d"]] !! 2%nat = Some ["b"; "c"]
  ∧ Forall2 (λ x l, x ∈ l) ["b"; "c"] [["a"; "b"]; ["c"; "d"]].
Proof.
  pose proof (C7_product_base_and_order "a" "b" "c") as (_ & _ & Hin & Hat).
  split.
  - exact (Hat ["a"; "b"] [["c"; "d"]] 1%nat 0%nat "b" ["c"] eq_refl eq_refl).
  - apply Hin. vm_compute.
    apply list_elem_of_further, list_elem_of_further, list_elem_of_here.
Defined.

Lemma C6_first_argument_rule_witness :
  fails (register (setting 6 [("start", ["?"])]) scan)
  ∧ register (setting 6 [("start", ["i"])]) scan
      ≠ Raise (Exception msg_must_specify).
Proof.
  split.
  - refine (proj1 (C6_first_argument_rule repr (λ g, g)
                     (setting 6 [("start", ["?"])]) scan _ _) _).
    + vm_compute. discriminate.
    + vm_compute. discriminate.
    + intros (tags & Hdecl & Hgood). vm_compute in Hdecl.
      injection Hdecl as <-.
      specialize (Hgood "?" TAny (list_elem_of_here _ _) eq_refl).
      discriminate Hgood.
  - refine (proj1 (proj2 (C6_first_argument_rule repr (λ g, g)
                            (setting 6 [("start", ["i"])]) scan _ _) _)).
    + vm_compute. discriminate.
    + vm_compute. discriminate.
    + exists ["i"]. split; [reflexivity |].
      intros s t ->%list_elem_of_singleton Ht. vm_compute in Ht.
      injection Ht as <-. reflexivity.
Defined.

Lemma C3_empty_tag_rules_witness :
  fails (register (setting 3 [("value", [""])]) put).
Proof.
  refine (proj1 (C3_empty_tag_rules repr (λ g, g)
                   (setting 3 [("value", [""])]) put 1 _) _).
  - exists [""], "", TNone. split; [reflexivity |].
    split; [apply list_elem_of_here |]. split; reflexivity.
  - left. lia.
Defined.

Lemma C5_single_cluster_group_witness :
  fails (register (setting 5 [("start", ["(si)"])]) scan)
  ∧ ∃ st, register (setting 5 [("data", ["(si)"])]) echo = Ok st
          ∧ "(si)" ∈ accepts st ∧ TCluster [TStr; TInt] ∈ accepts_t st
          ∧ is_LRCluster (TCluster [TStr; TInt]) = true.
Proof.
  split.
  - refine (proj1 (C5_single_cluster_group repr (λ g, g)
                     (setting 5 [("start", ["(si)"])]) scan "(si)"
                     (TCluster [TStr; TInt]) _ _) _ _).
    + reflexivity.
    + reflexivity.
    + vm_compute. discriminate.
    + vm_compute. apply list_elem_of_further, list_elem_of_here.
  - refine (proj2 (proj2 (C5_single_cluster_group repr (λ g, g)
                            (setting 5 [("data", ["(si)"])]) echo "(si)"
                            (TCluster [TStr; TInt]) _ _) _ _) _ _).
    + reflexivity.
    + reflexivity.
    + reflexivity.
    + vm_compute. apply list_elem_of_here.
    + intros p [tags Hp]. apply elem_of_list_to_map_2 in Hp.
      apply list_elem_of_singleton in Hp as [= -> _].
      apply list_elem_of_here.
    + intros s' Hs'. vm_compute in Hs'.
      apply list_elem_of_singleton in Hs' as ->. by eexists.
Defined.


Lemma C2_accepted_strings_nonempty_witness :
  ∃ st, register (setting 2 [("lo", ["i"])]) window = Ok st
        ∧ accepts st ≠ [].
Proof.
  eexists. split; [reflexivity |].
  refine (proj1 (proj2 (proj2 (C2_accepted_strings_nonempty repr (λ g, g)
                          (setting 2 [("lo", ["i"])]) window _ eq_refl))) _ _).
  - vm_compute. discriminate.
  - reflexivity.
Defined.

(** A default on a context parameter makes [Nrequired] negative: the
    branch of line 161 is not taken, and with an empty declared list no
    group is built, so that nothing is advertised. *)
Example shifted_advertises_nothing :
  ∃ st, register (setting 2 [("a", [])]) shifted = Ok st
        ∧ Nparams (setting 2 [("a", [])]) shifted = 2
        ∧ Nrequired (setting 2 [("a", [])]) shifted = -1
        ∧ groups_of (setting 2 [("a", [])]) shifted = []
        ∧ accepts st = [].
Proof. eexists. repeat split; reflexivity. Qed.

(** With a negative [Nrequired] the adapter of a handler with one
    parameter is the handler itself: [None] is passed as the value. *)
Example level_ctx_passes_None :
  ∃ st, register (setting 8 [("value", ["i"])]) level_ctx = Ok st
        ∧ Nrequired (setting 8 [("value", ["i"])]) level_ctx = -1
        ∧ unpack st self ctx VNone = Returned [self; ctx; VNone].
Proof. eexists. repeat split; reflexivity. Qed.

(** C2 as stated fails in both directions.  [echo] has a non-empty list
    of accepted strings although it cannot be called without a payload
    (its adapter passes [None] on as the argument); [level], registered
    without declared types, has an empty list although it accepts the
    empty call (its adapter calls it with the context alone). *)
Lemma C2_nonempty_iff_counterexample :
  (∃ st, register (setting 2 [("data", ["s"])]) echo = Ok st
         ∧ accepts st = ["s"]
         ∧ ¬ accepts_empty_call echo
         ∧ unpack st self ctx VNone = Returned [self; ctx; VNone])
  ∧ (∃ st, register (setting 2 []) level = Ok st
           ∧ accepts st = []
           ∧ accepts_empty_call level
           ∧ unpack st self ctx VNone = Returned [self; ctx; VInt 1]).
Proof.
  split; eexists; (split; [reflexivity |]); (split; [reflexivity |]);
    (split; [| reflexivity]).
  - intros H. by apply (H self ctx).
  - intros s c. discriminate.
Qed.

(** C3 as stated fails: the no-argument descriptor is declared for the
    first parameter of [level], which requires no argument at all, and the
    registration succeeds. *)
Lemma C3_zero_required_counterexample :
  ∃ st, register (setting 3 [("value", [""; "i"])]) level = Ok st
        ∧ declares_none (setting 3 [("value", [""; "i"])]) level 0
        ∧ Nrequired (setting 3 [("value", [""; "i"])]) level = 0
        ∧ accepts st = [""; "i"].
Proof.
  eexists. split; [reflexivity |]. split; [| split; reflexivity].
  exists [""; "i"], "", TNone. split; [reflexivity |].
  split; [apply list_elem_of_here |]. split; reflexivity.
Qed.

(** The same with two optional parameters. *)
Lemma empty_tag_first_of_two_optional :
  ∃ st, register (setting 3 [("lo", [""; "i"])]) window = Ok st
        ∧ declares_none (setting 3 [("lo", [""; "i"])]) window 0
        ∧ Nrequired (setting 3 [("lo", [""; "i"])]) window = 0.
Proof.
  eexists. split; [reflexivity |]. split; [| reflexivity].
  exists [""; "i"], "", TNone. split; [reflexivity |].
  split; [apply list_elem_of_here |]. split; reflexivity.
Qed.


(** C5 as stated fails: the single parameter of [echo] is declared with a
    cluster type, the group has arity 1, and the registration succeeds. *)
Lemma C5_one_parameter_counterexample :
  ∃ st, register (setting 5 [("data", ["(si)"])]) echo = Ok st
        ∧ Nparams (setting 5 [("data", ["(si)"])]) echo = 1
        ∧ accepts st = ["(si)"]
        ∧ accepts_t st = [TCluster [TStr; TInt]]
        ∧ is_LRCluster (TCluster [TStr; TInt]) = true.
Proof. eexists. repeat split; reflexivity. Qed.

(** C1 on [move(self, c, axis, steps=1, speed=2)]: the group of arity 2
    omits [speed], whose declared default is [2], but its annotation reads
    [speed=1], the default of [steps]. *)
Theorem C1_defaults_annotation_shifted :
  advertised (setting 1 [("axis", ["s"])]) move
  = Ok (["(s{axis}, ?{steps}, ?{speed})";
         "(s{axis}, ?{steps}): defaults [speed=1]";
         "s{axis}: defaults [steps=1, speed=2]"],
        [TCluster [TStr; TAny; TAny]; TCluster [TStr; TAny]; TStr])
  ∧ Nparams (setting 1 [("axis", ["s"])]) move = 3
  ∧ param_default (setting 1 [("axis", ["s"])]) move 1 = Some (VInt 1)
  ∧ param_default (setting 1 [("axis", ["s"])]) move 2 = Some (VInt 2)
  ∧ repr (VInt 2) = "2".
Proof. repeat split; reflexivity. Qed.

(** * Further properties of the decorator *)

(** ** [_product] *)

(** X1: the combinations of [_product] are exactly the sequences that take
    one candidate from each position, in the order of the positions. *)
Theorem X1_product_membership {A} (lists : list (list A)) (g : list A) :
  g ∈ _product lists ↔ Forall2 (λ x l, x ∈ l) g lists.
Proof. apply elem_of_product. Qed.

Lemma length_list_bind {A B} (k : A → list B) (l : list A) (n : nat) :
  (∀ x, x ∈ l → length (k x) = n) → length (l ≫= k) = (length l * n)%nat.
Proof.
  induction l as [|x l IH]; intros Hk; [done |].
  rewrite bind_cons, length_app, IH, Hk; [simpl; lia | left |].
  intros y Hy. apply Hk. by right.
Qed.

(** X2: [_product] yields as many combinations as the product of the
    numbers of candidates; in particular none as soon as one position has
    no candidate. *)
Theorem X2_product_length {A} (lists : list (list A)) :
  length (_product lists) = product_size lists
  ∧ ([] ∈ lists → _product lists = []).
Proof.
  assert (Hlen : ∀ ls : list (list A), length (_product ls) = product_size ls).
  { induction ls as [|l0 rest IH]; [done |]. simpl.
    rewrite (length_list_bind _ _ (product_size rest)); [done |].
    intros h _. rewrite (length_list_bind _ _ 1%nat); [lia | done]. }
  split; [apply Hlen |].
  intros Hin. apply length_zero_iff_nil. rewrite Hlen.
  induction lists as [|l0 rest IH]; [by apply elem_of_nil in Hin |].
  simpl. apply elem_of_cons in Hin as [<- | Hin]; [done |].
  rewrite IH by done. lia.
Qed.

(** X3: when no position lists a candidate twice, no combination occurs
    twice. *)
Theorem X3_product_NoDup {A} (lists : list (list A)) :
  Forall NoDup lists → NoDup (_product lists).
Proof.
  induction 1 as [|l0 rest Hl0 Hrest IH]; simpl; [apply NoDup_singleton |].
  apply NoDup_bind; [| | done].
  - intros h1 h2 g _ _ (t1 & ->%list_elem_of_singleton & _)%list_elem_of_bind
      (t2 & [= -> _]%list_elem_of_singleton & _)%list_elem_of_bind. done.
  - intros h _. apply NoDup_bind; [| | done].
    + intros t1 t2 g _ _ ->%list_elem_of_singleton [= ->]%list_elem_of_singleton.
      done.
    + intros t _. apply NoDup_singleton.
Qed.

Lemma X3_product_NoDup_witness :
  NoDup (_product [["s"; "i"]; ["?"]]).
Proof.
  apply X3_product_NoDup.
  apply (bool_decide_unpack _). vm_compute. exact I.
Defined.

(** ** [_isGenerator] *)

(** X4: [_isGenerator] looks at one bit of the code flags: it answers
    [True] exactly when bit 5 (value 0x20) is set, whatever the other
    flags are. *)
Theorem X4_isGenerator_bit {R} (f : Handler R) :
  _isGenerator f = Z.testbit (co_flags f) 5.
Proof.
  unfold _isGenerator. change 32 with (2 ^ 5).
  destruct (Z.testbit (co_flags f) 5) eqn:Hbit.
  - apply negb_true_iff, Z.eqb_neq. intros H0.
    assert (Hb : Z.testbit (Z.land (co_flags f) (2 ^ 5)) 5 = true).
    { rewrite Z.land_spec, Hbit, Z.pow2_bits_true; [done | lia]. }
    rewrite H0, Z.bits_0 in Hb. discriminate.
  - apply negb_false_iff, Z.eqb_eq, Z.bits_inj'. intros n Hn.
    rewrite Z.land_spec, Z.bits_0, Z.pow2_bits_eqb by lia.
    destruct (Z.eqb_spec 5 n) as [<- | _];
      [by rewrite Hbit | apply andb_false_r].
Qed.

(** ** The groups of the branch for two or more parameters *)

Lemma elem_of_range_down (a b n : Z) : n ∈ Py.range_down a b ↔ b < n ≤ a.
Proof.
  unfold Py.range_down. rewrite list_elem_of_fmap. split.
  - intros (k & -> & Hk%elem_of_seq). lia.
  - intros Hn. exists (Z.to_nat (a - n)). split; [lia |].
    apply elem_of_seq. lia.
Qed.

Lemma range_down_cons (a b : Z) :
  b < a → Py.range_down a b = a :: Py.range_down (a - 1) b.
Proof.
  intros Hab. unfold Py.range_down.
  replace (Z.to_nat (a - b)) with (S (Z.to_nat (a - 1 - b))) by lia.
  simpl. f_equal; [lia |]. rewrite <- fmap_S_seq, <- list_fmap_compose.
  apply list_fmap_ext. intros k. simpl. lia.
Qed.

Lemma range_down_nil (a b : Z) : a ≤ b → Py.range_down a b = [].
Proof.
  intros Hab. unfold Py.range_down.
  by replace (Z.to_nat (a - b)) with 0%nat by lia.
Qed.

(** A slice [l[:n]] is a prefix of [l]. *)
Lemma slice_to_take {A} (l : list A) (n : Z) :
  Py.slice_to l n = take (length (Py.slice_to l n)) l.
Proof.
  unfold Py.slice_to. destruct (n <? 0);
    by rewrite length_take, <- take_take, (take_ge l (length l)).
Qed.

Lemma slice_to_length {A} (l : list A) (n : Z) :
  0 ≤ n ≤ Py.len l → length (Py.slice_to l n) = Z.to_nat n.
Proof.
  intros Hn. unfold Py.slice_to, Py.len in *.
  destruct (Z.ltb_spec n 0); [lia |]. rewrite length_take. lia.
Qed.

Lemma slice_to_length_le {A} (l : list A) (n : Z) :
  (length (Py.slice_to l n) ≤ length l)%nat.
Proof.
  unfold Py.slice_to. destruct (n <? 0); rewrite length_take; lia.
Qed.

Section Groups.
Context (ps : gmap string (list string)) (args : list string).

Local Abbreviation cand := (λ a : string, default ["?"] (ps !! a)).
Local Abbreviation block :=
  (λ n : Z, let lists := cand <$> Py.slice_to args n in
            if Py.len lists =? 0 then [] else _product lists).

(** The groups made for one value of [n]. *)
Lemma elem_of_block (n : Z) (g : list string) :
  g ∈ block n ↔
  Py.slice_to args n ≠ []
  ∧ Forall2 (λ tag a, tag ∈ cand a) g (Py.slice_to args n).
Proof.
  cbv zeta. unfold Py.len. rewrite length_fmap.
  destruct (Py.slice_to args n) as [|a l] eqn:Hl.
  - split; [by intros ?%elem_of_nil | by intros [? _]].
  - replace (Z.of_nat (length (a :: l)) =? 0) with false
      by (symmetry; apply Z.eqb_neq; simpl; lia).
    rewrite elem_of_product, Forall2_fmap_r. split; [by split | by intros [_ ?]].
Qed.

Lemma block_length (n : Z) (g : list string) :
  g ∈ block n → length g = length (Py.slice_to args n).
Proof. intros [_ Hg]%elem_of_block. by eapply Forall2_length. Qed.

(** The groups: for every prefix of the parameters that is not empty and
    has at least [Nreq] parameters, one tag per parameter. *)
Lemma elem_of_build_groups (Nreq : Z) (g : list string) :
  g ∈ build_groups ps args (Py.len args) Nreq ↔
  ∃ m : nat, (1 ≤ m ≤ length args)%nat ∧ Nreq ≤ Z.of_nat m
             ∧ Forall2 (λ tag a, tag ∈ cand a) g (take m args).
Proof.
  unfold build_groups. rewrite list_elem_of_bind. split.
  - intros (n & [Hne Hg]%elem_of_block & Hn%elem_of_range_down).
    exists (length (Py.slice_to args n)).
    rewrite <- slice_to_take. split; [| split; [| done]].
    + pose proof (slice_to_length_le args n).
      destruct (Py.slice_to args n); [done | simpl in *; lia].
    + destruct (Z.ltb_spec n 0); [lia |].
      rewrite slice_to_length; lia.
  - intros (m & Hm & Hreq & Hg). exists (Z.of_nat m).
    assert (Hslice : Py.slice_to args (Z.of_nat m) = take m args).
    { unfold Py.slice_to. destruct (Z.ltb_spec (Z.of_nat m) 0); [lia |].
      by rewrite Nat2Z.id. }
    split; [| apply elem_of_range_down; unfold Py.len; lia].
    apply elem_of_block. rewrite Hslice. split; [| done].
    intros Hnil. apply (f_equal length) in Hnil.
    rewrite length_take in Hnil. simpl in Hnil. lia.
Qed.

(** Going down from [s], the groups come in blocks of decreasing
    length. *)
Lemma blocks_sorted (c : nat) (s : Z) :
  Z.of_nat c ≤ s + 1 → s ≤ Py.len args →
  StronglySorted (λ g h : list string, (length h ≤ length g)%nat)
    (Py.range_down s (s - Z.of_nat c) ≫= block).
Proof.
  revert s. induction c as [|c IH]; intros s Hc Hs.
  - rewrite range_down_nil by lia. constructor.
  - rewrite range_down_cons by lia. rewrite bind_cons.
    replace (s - Z.of_nat (S c)) with (s - 1 - Z.of_nat c) by lia.
    apply StronglySorted_app_2; [| | apply IH; lia].
    + intros g h Hg%block_length
        (n & Hh%block_length & Hn%elem_of_range_down)%list_elem_of_bind.
      rewrite Hg, Hh, !slice_to_length by lia. lia.
    + assert (Hsame : ∀ l : list (list string),
                (∀ g, g ∈ l → length g = length (Py.slice_to args s)) →
                StronglySorted (λ g h, (length h ≤ length g)%nat) l).
      { induction l as [|g l IHl]; intros Hl; constructor.
        - apply IHl. intros h Hh. apply Hl. by right.
        - apply Forall_forall. intros h Hh.
          rewrite (Hl g), (Hl h); [done | by right | left]. }
      apply Hsame. intros g Hg. by apply block_length.
Qed.

End Groups.

Section GroupProperties.
Context `{TB : TypeBridge} {R : Type}.

(** X5: the groups of accepted tags are exactly these: for every number
    [m] of leading parameters from [max(1, Nrequired)] to [Nparams], every
    choice of one candidate tag ([params.get(a, ['?'])]) for each of the
    first [m] parameters. *)
Theorem X5_groups_membership (sa : SettingArgs) (f : Handler R)
    (g : list string) :
  g ∈ groups_of sa f ↔
  ∃ m : nat, (1 ≤ m ≤ length (setting_args sa f))%nat
             ∧ Nrequired sa f ≤ Z.of_nat m
             ∧ Forall2 (λ tag a, tag ∈ candidates sa a) g
                       (take m (setting_args sa f)).
Proof. apply elem_of_build_groups. Qed.

(** X6: when no context parameter has a default ([0 <= Nrequired]), the
    groups are listed by decreasing arity. *)
Theorem X6_groups_descending (sa : SettingArgs) (f : Handler R) :
  0 ≤ Nrequired sa f →
  StronglySorted (λ g h : list string, (length h ≤ length g)%nat)
                 (groups_of sa f).
Proof.
  intros Hreq. unfold groups_of, build_groups.
  pose proof (Nrequired_le_Nparams sa f) as Hle.
  replace (Nrequired sa f - 1)
    with (Nparams sa f
          - Z.of_nat (Z.to_nat (Nparams sa f - Nrequired sa f + 1))) by lia.
  apply blocks_sorted; [lia | done].
Qed.

End GroupProperties.

Lemma X6_groups_descending_witness :
  StronglySorted (λ g h : list string, (length h ≤ length g)%nat)
    (groups_of (setting 1 [("axis", ["s"; "i"])]) move).
Proof.
  apply X6_groups_descending. vm_compute. discriminate.
Defined.

(** ** Handlers with one parameter, unknown keywords, the two lists *)

Lemma empty_after_first_not_invalid_param (p : string) :
  Exception msg_empty_after_first ≠ Exception (msg_invalid_param p).
Proof.
  unfold msg_invalid_param, msg_empty_after_first. simpl.
  intros [= H]. revert H.
  repeat (destruct p as [|? p]; simpl; [discriminate | intros [= _ H]; revert H]).
Qed.

Section SingleParameter.
Context `{TB : TypeBridge} {R : Type}.
Variable repr : Value → string.
Variable inlineCallbacks : Callable R → Callable R.

Local Abbreviation registration := (decorated repr inlineCallbacks).
Local Abbreviation compilation := (compile repr inlineCallbacks).
Local Abbreviation target := (lifted inlineCallbacks).

(** The adapter chosen on lines 84-101. *)
Lemma compile_one_unpack ps (a0 : string) (ds : option (list Value))
    (Nreq : Z) (g : Callable R) s t u :
  compile_one repr ps a0 ds Nreq g = Ok (s, t, u) →
  u = if Nreq =? 0 then unpack_one_optional g else unpack_direct g.
Proof.
  unfold compile_one. intros (ts & _ & H)%bind_Ok.
  destruct (Nreq =? 0); [| by injection H].
  destruct (_ && _); [| by injection H].
  apply bind_Ok in H as (? & _ & H). by injection H.
Qed.

Lemma registration_one (sa : SettingArgs) (f : Handler R)
    (st : Setting LRType R) :
  registration sa f = Ok st → Nparams sa f = 1 →
  ∃ a0, setting_args sa f = [a0]
        ∧ compile_one repr (params sa) a0 (defaults f) (Nrequired sa f)
            (target f) = Ok (accepts st, accepts_t st, unpack st).
Proof.
  intros Hst%decorated_Ok [a0 Hargs]%Nparams_one. exists a0. split; [done |].
  rewrite (compile_one_case _ _ _ _ _ Hargs) in Hst.
  by apply bind_Ok in Hst as ([] & _ & Hst).
Qed.

Lemma parsed_tags (tags : list string) (ts : list LRType) :
  mapM parse tags = Ok ts → Forall2 (λ s t, parseTypeTag s = Some t) tags ts.
Proof.
  intros Hts%mapM_Ok. eapply Forall2_impl; [exact Hts |].
  intros s t. apply parse_Ok.
Qed.

(** X7: for a handler with one parameter that is not optional, the
    advertised strings are the declared tags as they are (none when no
    types are declared), the descriptors are their parses, and the adapter
    is the handler itself: every payload, [None] and tuples included, is
    passed as the one argument. *)
Theorem X7_single_required_parameter (sa : SettingArgs) (f : Handler R)
    (st : Setting LRType R) :
  registration sa f = Ok st →
  Nparams sa f = 1 →
  Nrequired sa f ≠ 0 →
  accepts st = declared_first sa f
  ∧ Forall2 (λ s t, parseTypeTag s = Some t) (declared_first sa f) (accepts_t st)
  ∧ ∀ self c data, unpack st self c data = target f [self; c; data].
Proof.
  intros Hst HN Hreq.
  destruct (registration_one _ _ _ Hst HN) as (a0 & Hargs & Hc).
  pose proof (compile_one_unpack _ _ _ _ _ _ _ _ Hc) as Hu.
  apply compile_one_shape in Hc as (ts & Hts & Hshape).
  rewrite <- (declared_first_one _ _ _ _ Hargs) in Hts, Hshape.
  apply Z.eqb_neq in Hreq. rewrite Hreq in Hshape, Hu. simpl in Hshape.
  destruct Hshape as [-> ->]. rewrite Hu.
  split; [done |]. split; [by apply parsed_tags | done].
Qed.

(** X8: for a handler with one parameter and [Nrequired == 0] (the
    parameter has a default and no context parameter has one), the adapter
    calls the handler with the context alone on [None], so that the
    parameter takes its default, and passes every other payload, tuples
    included, as the one argument.  (When a context parameter has a
    default as well, [Nrequired] is negative and X7 applies.) *)
Theorem X8_single_optional_adapter (sa : SettingArgs) (f : Handler R)
    (st : Setting LRType R) :
  registration sa f = Ok st →
  Nparams sa f = 1 →
  Nrequired sa f = 0 →
  (∀ self c, unpack st self c VNone = target f [self; c])
  ∧ (∀ self c data, data ≠ VNone →
       unpack st self c data = target f [self; c; data]).
Proof.
  intros Hst HN Hreq.
  destruct (registration_one _ _ _ Hst HN) as (a0 & Hargs & Hc).
  rewrite (compile_one_unpack _ _ _ _ _ _ _ _ Hc), Hreq. simpl.
  split; [done |]. intros self c data Hdata. by destruct data.
Qed.

(** X9: for a handler with one parameter whose declared types already
    contain the no-argument descriptor, nothing is appended: the
    advertised strings are the declared tags. *)
Theorem X9_single_parameter_none_declared (sa : SettingArgs) (f : Handler R)
    (st : Setting LRType R) :
  registration sa f = Ok st →
  Nparams sa f = 1 →
  declares_none sa f 0 →
  accepts st = declared_first sa f
  ∧ Forall2 (λ s t, parseTypeTag s = Some t) (declared_first sa f) (accepts_t st).
Proof.
  intros Hst HN (tags & s & t & Hdecl & Hs & Ht & Hnone).
  destruct (registration_one _ _ _ Hst HN) as (a0 & Hargs & Hc).
  apply compile_one_shape in Hc as (ts & Hts & Hshape).
  rewrite <- (declared_first_one _ _ _ _ Hargs) in Hts, Hshape.
  assert (Hhas : has_LRNone ts = true).
  { apply (has_LRNone_parsed _ _ Hts). exists s, t.
    unfold declared_first. rewrite Hdecl. done. }
  rewrite Hhas in Hshape. simpl in Hshape.
  rewrite andb_false_r, andb_false_r in Hshape.
  destruct Hshape as [-> ->]. split; [done | by apply parsed_tags].
Qed.

(** X10: after every successful registration there are as many advertised
    strings as descriptors. *)
Theorem X10_strings_match_descriptors (sa : SettingArgs) (f : Handler R)
    (st : Setting LRType R) :
  registration sa f = Ok st →
  length (accepts st) = length (accepts_t st).
Proof.
  intros Hst. pose proof (Nparams_nonneg sa f) as Hnn.
  destruct (decide (Nparams sa f = 0)) as [H0 | H0];
    [| destruct (decide (Nparams sa f = 1)) as [H1 | H1]].
  - apply decorated_Ok in Hst. apply Nparams_zero in H0.
    rewrite (compile_zero_case _ _ _ _ H0) in Hst.
    apply bind_Ok in Hst as ([] & _ & Hst). unfold compile_zero in Hst.
    apply bind_Ok in Hst as (ts & Hts%mapM_length & [= <- <- _]). done.
  - destruct (registration_one _ _ _ Hst H1) as (a0 & Hargs & Hc).
    apply compile_one_shape in Hc as (ts & Hts%mapM_length & Hshape).
    destruct (_ && _).
    + destruct Hshape as (d0 & _ & -> & ->). rewrite !length_app. simpl. lia.
    + destruct Hshape as [-> ->]. done.
  - assert (HN : 2 ≤ Nparams sa f) by lia.
    apply decorated_Ok in Hst. rewrite (compile_many_case _ _ _ _ HN) in Hst.
    apply bind_Ok in Hst as ([] & _ & Hst).
    apply compile_many_shape in Hst as (rendered & _ & Hshape).
    destruct (_ && _).
    + destruct Hshape as (entry & _ & -> & ->).
      rewrite !length_app, !length_fmap. done.
    + destruct Hshape as [-> ->]. by rewrite !length_fmap.
Qed.

(** X11: a keyword of [setting] that names no parameter of the handler
    aborts the registration with the message that names such a keyword,
    before anything else is looked at; the message is raised in no other
    case. *)
Theorem X11_unknown_keyword (sa : SettingArgs) (f : Handler R) :
  ((∃ p, is_Some (params sa !! p) ∧ p ∉ setting_args sa f) →
   ∃ p, is_Some (params sa !! p) ∧ (p ∉ setting_args sa f)
        ∧ registration sa f = Raise (Exception (msg_invalid_param p)))
  ∧ ((∃ p, registration sa f = Raise (Exception (msg_invalid_param p))) →
     ∃ p, is_Some (params sa !! p) ∧ p ∉ setting_args sa f).
Proof.
  split.
  - intros Hbad.
    destruct (check_params (params sa) (setting_args sa f)) as [[]|e] eqn:Hc.
    { rewrite check_params_Ok in Hc. destruct Hbad as (p & Hp & Hnot).
      destruct (Hnot (Hc p Hp)). }
    pose proof Hc as Hraise. unfold check_params in Hc.
    apply for_each_Raise in Hc as (p & Hp & He).
    case_bool_decide as Hin; [discriminate |]. injection He as <-.
    apply list_elem_of_fmap in Hp as ([p' tags] & -> & Hp%elem_of_map_to_list).
    exists p'. split; [by exists tags |]. split; [done |].
    apply decorated_Raise. unfold compile. by rewrite Hraise.
  - intros [p He]. pose proof He as Hr%decorated_Raise. unfold compile in Hr.
    apply bind_Raise in Hr as [Hc | ([] & Hc & Hr)].
    + unfold check_params in Hc.
      apply for_each_Raise in Hc as (p' & Hp' & Hb).
      case_bool_decide as Hin; [discriminate |].
      apply list_elem_of_fmap in Hp' as ([q tags] & -> & Hq%elem_of_map_to_list).
      exists q. split; [by exists tags | done].
    + exfalso. apply registration_Raise in He.
      destruct He as [[q Hq] | [He | (_ & [(a0 & _ & Hf) | He])]].
      * destruct (setting_args sa f) as [|a0 [|a1 l]].
        -- apply compile_zero_Raise in Hr. inversion Hr.
        -- apply compile_one_Raise in Hr. inversion Hr.
        -- apply compile_many_Raise in Hr
             as [Hr | [(a & _ & Hf) | [[_ Hr] | [Hr | Hr]]]].
           ++ inversion Hr.
           ++ apply check_first_arg_Raise in Hf as [_ Hf].
              destruct Hf as [[_ Hf] | (? & ? & _ & _ & [[_ [=]] | (? & _ & _ & Hf)])].
              ** symmetry in Hf. by eapply must_specify_not_invalid_param.
              ** symmetry in Hf. by eapply cluster_or_any_not_invalid_param.
           ++ symmetry in Hr. by eapply empty_many_required_not_invalid_param.
           ++ symmetry in Hr. by eapply empty_after_first_not_invalid_param.
           ++ symmetry in Hr. by eapply cluster_first_not_invalid_param.
      * inversion He.
      * apply check_first_arg_Raise in Hf as [_ Hf].
        destruct Hf as [[_ Hf] | (? & ? & _ & _ & [[_ [=]] | (? & _ & _ & Hf)])].
        -- symmetry in Hf. by eapply must_specify_not_invalid_param.
        -- symmetry in Hf. by eapply cluster_or_any_not_invalid_param.
      * destruct He as [[_ He] | [He | He]]; symmetry in He.
        -- by eapply empty_many_required_not_invalid_param.
        -- by eapply empty_after_first_not_invalid_param.
        -- by eapply cluster_first_not_invalid_param.
Qed.

End SingleParameter.

(** ** Every failure has a cause *)

Lemma elem_of_range (a b n : Z) : n ∈ Py.range a b ↔ a ≤ n < b.
Proof.
  unfold Py.range. rewrite list_elem_of_fmap. split.
  - intros (k & -> & Hk%elem_of_seq). lia.
  - intros Hn. exists (Z.to_nat (n - a)). split; [lia |].
    apply elem_of_seq. lia.
Qed.

Lemma getitem_lookup {A} (l : list A) (i : Z) :
  0 ≤ i → Py.getitem l i = l !! Z.to_nat i.
Proof. intros Hi. unfold Py.getitem. by destruct (Z.ltb_spec i 0); [lia |]. Qed.

Lemma getitem_in_range {A} (l : list A) (i : Z) :
  0 ≤ i < Py.len l → is_Some (Py.getitem l i).
Proof.
  intros Hi. rewrite getitem_lookup by lia.
  apply lookup_lt_is_Some_2. unfold Py.len in Hi. lia.
Qed.

Section Causes.
Context `{TB : TypeBridge} {R : Type}.
Variable repr : Value → string.
Variable inlineCallbacks : Callable R → Callable R.

Local Abbreviation registration := (decorated repr inlineCallbacks).
Local Abbreviation compilation := (compile repr inlineCallbacks).
Local Abbreviation target := (lifted inlineCallbacks).

Lemma mapM_parse_Raise (tags : list string) (e : Raised) :
  mapM parse tags = Raise e →
  ∃ s, s ∈ tags ∧ parseTypeTag s = None ∧ e = TagSyntaxError s.
Proof.
  intros (s & Hs & He)%mapM_Raise. exists s. unfold parse in He.
  destruct (parseTypeTag s); [discriminate |]. injection He as <-. done.
Qed.

Lemma declared_tag_used (sa : SettingArgs) (a s : string) :
  s ∈ default [] (params sa !! a) → tag_used sa s.
Proof.
  destruct (params sa !! a) as [tags|] eqn:Ha; simpl.
  - intros Hs. right; right. by exists a, tags.
  - by intros ?%elem_of_nil.
Qed.

Lemma candidate_tag_used (sa : SettingArgs) (a s : string) :
  s ∈ candidates sa a → tag_used sa s.
Proof.
  unfold candidates. destruct (params sa !! a) as [tags|] eqn:Ha; simpl.
  - intros Hs. right; right. by exists a, tags.
  - intros ->%list_elem_of_singleton. right; by left.
Qed.

(** The subscripts of the annotation stay in range. *)
Lemma defaults_annotation_Ok (args : list string) (l : list Value)
    (N glen : Z) :
  0 ≤ glen → N ≤ Py.len args → N - glen ≤ Py.len l →
  ∃ note, defaults_annotation repr args (Some l) N glen = Ok note.
Proof.
  intros Hglen HN Hl.
  destruct (defaults_annotation repr args (Some l) N glen) as [note|e] eqn:H;
    [by exists note |].
  exfalso. unfold defaults_annotation in H.
  apply bind_Raise in H as [H | (? & _ & [=])].
  apply mapM_Raise in H as (n & Hn%elem_of_range & H).
  destruct (getitem_in_range args n) as [a Ha]; [lia |].
  destruct (getitem_in_range l (n - glen)) as [d Hd]; [lia |].
  unfold defaults_item in H. rewrite Ha, Hd in H. discriminate.
Qed.

(** The loop body fails only on a tag that does not parse or on a single
    tag that parses to a cluster. *)
Lemma render_group_Raise_cause (args : list string) (ds : option (list Value))
    (N : Z) (group : list string) (e : Raised) :
  group ≠ [] → args ≠ [] → N ≤ Py.len args →
  (Py.len group < N → ∃ l, ds = Some l ∧ N - Py.len group ≤ Py.len l) →
  render_group repr args ds N group = Raise e →
  (∃ s, s ∈ group ∧ parseTypeTag s = None ∧ e = TagSyntaxError s)
  ∨ (∃ g0 t, group = [g0] ∧ parseTypeTag g0 = Some t
             ∧ is_LRCluster t = true ∧ e = Exception msg_cluster_first).
Proof.
  intros Hg Ha HN Hds. unfold render_group.
  intros [He | ([t s] & _ & He)]%bind_Raise.
  - destruct (1 <? Py.len group) eqn:Hlen.
    + apply bind_Raise in He as [He | (ts & _ & [=])].
      left. by apply mapM_parse_Raise.
    + destruct group as [|g0 group']; [done |].
      assert (group' = []) as ->.
      { apply Z.ltb_ge in Hlen. unfold Py.len in Hlen.
        destruct group'; [done | simpl in Hlen; lia]. }
      change (Py.getitem [g0] 0) with (Some g0) in He. simpl in He.
      apply bind_Raise in He as [He | (t & Ht%parse_Ok & He)].
      * left. exists g0. unfold parse in He.
        destruct (parseTypeTag g0); [discriminate |]. injection He as <-.
        split; [left | done].
      * destruct (is_LRCluster t) eqn:Hc.
        -- right. exists g0, t. injection He as <-. done.
        -- destruct args as [|a0 args']; [done | discriminate He].
  - destruct (Py.len group <? N) eqn:Hlt; [| discriminate].
    apply Z.ltb_lt in Hlt. destruct (Hds Hlt) as (l & -> & Hl).
    destruct (defaults_annotation_Ok args l N (Py.len group)) as [note Hn];
      [unfold Py.len; lia | done | done |].
    rewrite Hn in He. discriminate.
Qed.

(** A group of [m] tags is annotated only when [m < Nparams]; there are
    then enough defaults. *)
Lemma group_defaults_available (sa : SettingArgs) (f : Handler R) (m : Z) :
  Nrequired sa f ≤ m → m < Nparams sa f →
  ∃ l, defaults f = Some l ∧ Nparams sa f - m ≤ Py.len l.
Proof.
  unfold Nrequired, Noptional. destruct (defaults f) as [l|]; [| lia].
  intros Hm HN. exists l. split; [done | lia].
Qed.

Lemma check_first_arg_passed ps (a0 : string) (Nreq : Z) (s : string)
    (t : LRType) :
  check_first_arg ps a0 Nreq = Ok () → Nreq ≤ 1 →
  s ∈ default ["?"] (ps !! a0) → parseTypeTag s = Some t →
  is_LRAny t || is_LRCluster t = false.
Proof.
  unfold check_first_arg. intros Hc Hreq.
  rewrite (proj2 (Z.leb_le _ _) Hreq) in Hc.
  destruct (ps !! a0) as [tags|]; [| discriminate]. simpl.
  intros Hs Ht. rewrite for_each_Ok in Hc. specialize (Hc s Hs).
  rewrite (proj2 (parse_Ok _ _) Ht) in Hc. simpl in Hc.
  by destruct (is_LRAny t || is_LRCluster t).
Qed.

Lemma registration_many_cause (sa : SettingArgs) (f : Handler R) (e : Raised) :
  2 ≤ Nparams sa f →
  compile_many repr (params sa) (setting_args sa f) (defaults f)
    (Nparams sa f) (Nrequired sa f) (target f) = Raise e →
  failure sa f e.
Proof.
  intros HN. destruct (proj1 (Nparams_many _ _) HN) as (a0 & a1 & l & Hargs).
  assert (Hd0 : declared sa f 0 = params sa !! a0).
  { unfold declared. by rewrite Hargs. }
  unfold compile_many.
  replace (Py.getitem (setting_args sa f) 0) with (Some a0) by by rewrite Hargs.
  simpl. intros [He | ([] & Hfirst & He)]%bind_Raise.
  { apply check_first_arg_Raise in He as [Hreq He].
    destruct He as [[Hnone ->] | (tags & s & Htags & Hs & He)].
    - apply failure_first_undeclared; [done | done | by rewrite Hd0].
    - destruct He as [[Hp ->] | (t & Ht & Hbad & ->)].
      + apply failure_tag_syntax; [| done]. right; right. by exists a0, tags.
      + eapply failure_first_ambiguous; [done | done | | done..].
        by rewrite Hd0. }
  apply bind_Raise in He as [He | ([] & _ & He)].
  { unfold check_empty_first in He.
    apply bind_Raise in He as [(s & Hs & Hp & ->)%mapM_parse_Raise | (ts & Hts & He)].
    - apply failure_tag_syntax; [by eapply declared_tag_used | done].
    - destruct (1 <? Nrequired sa f) eqn:Hreq; [| discriminate].
      destruct (has_LRNone ts) eqn:Hhas; [| discriminate].
      injection He as <-. apply Z.ltb_lt in Hreq.
      apply failure_empty_first; [done | done |].
      apply (has_LRNone_parsed _ _ Hts) in Hhas as (s & t & Hs & Ht & Heq).
      destruct (params sa !! a0) as [tags|] eqn:Htags;
        [| by apply elem_of_nil in Hs].
      exists tags, s, t. by rewrite Hd0. }
  apply bind_Raise in He as [He | ([] & _ & He)].
  { unfold check_empty_rest in He.
    apply for_each_Raise in He as (p & Hp & He).
    apply bind_Raise in He as [(s & Hs & Hps & ->)%mapM_parse_Raise | (ts & Hts & He)].
    - apply failure_tag_syntax; [by eapply declared_tag_used | done].
    - destruct (has_LRNone ts) eqn:Hhas; [| discriminate].
      injection He as <-.
      apply (has_LRNone_parsed _ _ Hts) in Hhas as (s & t & Hs & Ht & Heq).
      destruct (params sa !! p) as [tags|] eqn:Htags;
        [| by apply elem_of_nil in Hs].
      rewrite Hargs in Hp. change (Py.slice_from (a0 :: a1 :: l) 1)
        with (a1 :: l) in Hp.
      apply list_elem_of_lookup_1 in Hp as [i Hi].
      apply (failure_empty_later _ _ (S i)); [done | done |].
      exists tags, s, t. unfold declared. rewrite Hargs. simpl.
      rewrite Hi. simpl. done. }
  apply bind_Raise in He as [He | (rendered & _ & He)].
  { apply mapM_Raise in He as (group & Hgroup & He).
    unfold Nparams in Hgroup at 1.
    apply elem_of_build_groups in Hgroup as (m & Hm & Hreq & Hg).
    pose proof (Forall2_length _ _ _ Hg) as Hlen.
    rewrite length_take in Hlen.
    assert (Hglen : Py.len group = Z.of_nat m) by (unfold Py.len; lia).
    apply render_group_Raise_cause in He
      as [(s & Hs & Hp & ->) | (g0 & t & -> & Ht & Hc & ->)].
    - apply failure_tag_syntax; [| done].
      apply list_elem_of_lookup_1 in Hs as [i Hi].
      destruct (Forall2_lookup_l _ _ _ _ _ Hg Hi) as (a & _ & Ha).
      by eapply candidate_tag_used.
    - exfalso. simpl in Hlen. assert (m = 1%nat) as -> by lia.
      rewrite Hargs in Hg. simpl in Hg.
      apply Forall2_cons_1 in Hg as [Hg0 _].
      pose proof (check_first_arg_passed _ _ _ _ _ Hfirst ltac:(lia) Hg0 Ht)
        as Hgood.
      apply orb_false_elim in Hgood as [_ Hgood]. congruence.
    - destruct group; [simpl in Hlen; lia | done].
    - by rewrite Hargs.
    - done.
    - rewrite Hglen. intros Hlt. apply group_defaults_available; lia. }
  destruct (Nrequired sa f =? 0) eqn:Hreq; [| discriminate].
  destruct (negb _); [| discriminate].
  apply bind_Raise in He as [He | (? & _ & [=])].
  exfalso. apply Z.eqb_eq in Hreq.
  destruct (group_defaults_available sa f 0) as (l' & Hl' & _); [lia.. |].
  unfold all_defaults_entry in He. rewrite Hl' in He. discriminate.
Qed.

(** Whatever a registration raises, it raises for one of six reasons. *)
Lemma registration_cause (sa : SettingArgs) (f : Handler R) (e : Raised) :
  registration sa f = Raise e → failure sa f e.
Proof.
  intros He%decorated_Raise. unfold compile in He.
  apply bind_Raise in He as [He | ([] & _ & He)].
  { unfold check_params in He. apply for_each_Raise in He as (p & Hp & He).
    case_bool_decide as Hin; [discriminate |]. injection He as <-.
    apply list_elem_of_fmap in Hp as ([q tags] & -> & Hq%elem_of_map_to_list).
    apply failure_unknown_keyword; [by exists tags | done]. }
  destruct (setting_args sa f) as [|a0 [|a1 l]] eqn:Hargs.
  - unfold compile_zero in He.
    apply bind_Raise in He as [(s & Hs & Hp & ->)%mapM_parse_Raise | (? & _ & [=])].
    apply list_elem_of_singleton in Hs as ->.
    apply failure_tag_syntax; [by left | done].
  - unfold compile_one in He.
    apply bind_Raise in He as [(s & Hs & Hp & ->)%mapM_parse_Raise | (ts & _ & He)].
    { apply failure_tag_syntax; [by eapply declared_tag_used | done]. }
    destruct (Nrequired sa f =? 0) eqn:Hreq; [| discriminate].
    destruct (_ && _); [| discriminate].
    apply bind_Raise in He as [He | (? & _ & [=])].
    exfalso. apply Z.eqb_eq in Hreq.
    destruct (group_defaults_available sa f 0) as (l' & Hl' & Hlen);
      [lia | unfold Nparams; rewrite Hargs; done |].
    unfold Nparams in Hlen. rewrite Hargs in Hlen.
    unfold defaults_item in He. rewrite Hl' in He.
    destruct (getitem_in_range l' 0) as [d Hd];
      [unfold Py.len in *; simpl in Hlen; lia |].
    rewrite Hd in He. discriminate.
  - rewrite <- Hargs in He. apply registration_many_cause; [| done].
    apply Nparams_many. by exists a0, a1, l.
Qed.

End Causes.

(** ** What a registration raises, and when it succeeds *)

Section Outcomes.
Context `{TB : TypeBridge} {R : Type}.
Variable repr : Value → string.
Variable inlineCallbacks : Callable R → Callable R.

Local Abbreviation registration := (decorated repr inlineCallbacks).
Local Abbreviation compilation := (compile repr inlineCallbacks).
Local Abbreviation target := (lifted inlineCallbacks).

(** X12: whatever a registration raises has one of six causes: a keyword
    that names no parameter; a tag (declared, or one of the built-in tags
    for "any" and "nothing") that the parser rejects; with two or more
    parameters of which at most one is required, a first parameter without
    declared types or with a declared wildcard or cluster; the no-argument
    tag on the first parameter when more than one argument is required;
    the no-argument tag on a later parameter. *)
Theorem X12_failure_causes (sa : SettingArgs) (f : Handler R) (e : Raised) :
  registration sa f = Raise e → failure sa f e.
Proof. apply registration_cause. Qed.

(** X13: the subscripts of the decorator never leave their range and the
    check of lines 150-151 never fires: no registration ends in an
    IndexError or a TypeError, or raises the message of line 151 (a group
    of one tag is built only when at most one argument is required, and
    then lines 106-115 have already rejected a cluster). *)
Theorem X13_never_raised (sa : SettingArgs) (f : Handler R) :
  registration sa f ≠ Raise IndexError
  ∧ registration sa f ≠ Raise TypeError
  ∧ registration sa f ≠ Raise (Exception msg_cluster_first).
Proof.
  split; [| split]; intros He%registration_cause; inversion He.
Qed.

(** X14: a declaration that is in order registers.  If every keyword
    names a parameter, every tag that can reach the parser parses, the
    first parameter has concrete declared types whenever there are two or
    more parameters and at most one is required, and the no-argument tag
    is declared at most for the first parameter with at most one required
    argument, then the decorator returns the decorated handler. *)
Theorem X14_well_declared_registers (sa : SettingArgs) (f : Handler R) :
  (∀ p, is_Some (params sa !! p) → p ∈ setting_args sa f) →
  (∀ s, tag_used sa s → is_Some (parseTypeTag s)) →
  (2 ≤ Nparams sa f → Nrequired sa f ≤ 1 → first_types_concrete sa f) →
  (2 ≤ Nparams sa f → ∀ j, declares_none sa f j →
                           j = 0%nat ∧ Nrequired sa f ≤ 1) →
  ∃ st, registration sa f = Ok st.
Proof.
  intros Hkeys Htags Hfirst Hnone.
  destruct (registration sa f) as [st|e] eqn:Hr; [by exists st |].
  exfalso. apply registration_cause in Hr.
  inversion Hr as [p Hp Hnot | s Hs Hparse | HN Hreq Hdecl
                   | tags s t HN Hreq Hdecl Hs Ht Hbad
                   | HN Hreq Hdecl | j HN Hj Hdecl]; subst.
  - by apply Hnot, Hkeys.
  - destruct (Htags s Hs) as [t Ht]. congruence.
  - destruct (Hfirst HN Hreq) as (tags & Htags' & _). congruence.
  - destruct (Hfirst HN Hreq) as (tags' & Htags' & Hgood).
    assert (tags' = tags) as -> by congruence.
    rewrite (Hgood s t Hs Ht) in Hbad. discriminate.
  - destruct (Hnone HN 0%nat Hdecl) as [_ Hle]. lia.
  - destruct (Hnone HN j Hdecl) as [Hj0 _]. done.
Qed.

(** The pieces of an annotation made with the subscript [n - Nrequired]
    pair every parameter with its declared default. *)
Lemma annotation_pairs_declared (sa : SettingArgs) (f : Handler R)
    (parts : list string) :
  0 ≤ Nrequired sa f →
  mapM (λ n, a ← from_option IndexError (Py.getitem (setting_args sa f) n);
             d ← defaults_item (defaults f) (n - Nrequired sa f);
             Ok (a +:+ "=" +:+ repr d))
       (Py.range (Nrequired sa f) (Nparams sa f)) = Ok parts →
  declared_pairs repr sa f
    (seq (Z.to_nat (Nrequired sa f))
         (Z.to_nat (Nparams sa f - Nrequired sa f))) parts.
Proof.
  intros Hreq Hparts%mapM_Ok. unfold Py.range in Hparts.
  unfold declared_pairs. rewrite <- (Nat.add_0_r (Z.to_nat (Nrequired sa f))).
  rewrite <- fmap_add_seq. apply Forall2_fmap_l. apply Forall2_fmap_l in Hparts.
  eapply Forall2_impl; [exact Hparts |]. simpl. intros k part Hk.
  apply bind_Ok in Hk as (a & Ha & Hk). apply bind_Ok in Hk as (d & Hd & [= <-]).
  exists a, d. split; [| split; [| done]].
  - rewrite getitem_lookup in Ha by lia.
    replace (Z.to_nat (Nrequired sa f + Z.of_nat k))
      with (Z.to_nat (Nrequired sa f) + k)%nat in Ha by lia.
    by destruct (setting_args sa f !! _); simplify_eq/=.
  - rewrite declared_default_index by lia.
    unfold defaults_item, defaults_list in *.
    destruct (defaults f) as [l|]; [| discriminate]. simpl.
    rewrite getitem_lookup in Hd by lia.
    replace (Z.to_nat (Z.of_nat (Z.to_nat (Nrequired sa f) + k)
                       - Nrequired sa f))
      with (Z.to_nat (Nrequired sa f + Z.of_nat k - Nrequired sa f)) by lia.
    by destruct (l !! _); simplify_eq/=.
Qed.

(** X15: for a handler with two or more parameters of which at least one
    is required, the entry of every group of exactly [Nrequired] tags ends
    with the annotation that lists each omitted parameter with its own
    declared default. *)
Theorem X15_annotation_of_shortest_groups (sa : SettingArgs) (f : Handler R)
    (st : Setting LRType R) (i : nat) (group : list string) :
  registration sa f = Ok st →
  2 ≤ Nparams sa f →
  1 ≤ Nrequired sa f →
  Nrequired sa f < Nparams sa f →
  groups_of sa f !! i = Some group →
  Py.len group = Nrequired sa f →
  ∃ s0 parts,
    accepts st !! i = Some (s0 +:+ defaults_note (Py.join ", " parts))
    ∧ declared_pairs repr sa f
        (seq (Z.to_nat (Nrequired sa f))
             (Z.to_nat (Nparams sa f - Nrequired sa f))) parts.
Proof.
  intros Hst%decorated_Ok HN Hreq Hlt Hi Hlen.
  rewrite (compile_many_case _ _ _ _ HN) in Hst.
  apply bind_Ok in Hst as ([] & _ & Hst).
  apply compile_many_shape in Hst as (rendered & Hr & Hshape).
  destruct (Z.eqb_spec (Nrequired sa f) 0) as [| _]; [lia |].
  simpl in Hshape. destruct Hshape as [-> _].
  apply mapM_Ok in Hr.
  destruct (Forall2_lookup_l _ _ _ _ _ Hr Hi) as ([t s] & Hri & Hrender).
  rewrite list_lookup_fmap, Hri. simpl.
  unfold render_group in Hrender.
  apply bind_Ok in Hrender as ([t0 s0] & _ & Hrender).
  rewrite Hlen, (proj2 (Z.ltb_lt _ _) Hlt) in Hrender.
  apply bind_Ok in Hrender as (note & Hnote & [= <- <-]).
  unfold defaults_annotation in Hnote.
  apply bind_Ok in Hnote as (parts & Hparts & [= <-]).
  exists s0, parts. split; [done |].
  apply annotation_pairs_declared; [lia | done].
Qed.


Lemma compile_table_irrelevant (sa : SettingArgs) (f g : Handler R)
    (lift lift' : Callable R → Callable R) :
  argnames f = argnames g → defaults f = defaults g →
  (c ← compile repr lift sa f; Ok c.1)
  = (c ← compile repr lift' sa g; Ok c.1).
Proof.
  intros Hargs Hds. unfold compile, Nrequired, Nparams, Noptional, setting_args.
  rewrite <- Hargs, <- Hds.
  destruct (check_params _ _) as [[]|]; simpl; [| done].
  destruct (Py.slice_from (argnames f) (lr_num_params sa)) as [|a0 [|a1 l]].
  - unfold compile_zero. by destruct (mapM parse _).
  - unfold compile_one. destruct (mapM parse _); simpl; [| done].
    destruct (_ =? 0); [| done]. destruct (_ && _); [| done].
    by destruct (defaults_item _ _).
  - unfold compile_many.
    destruct (from_option _ _); simpl; [| done].
    destruct (check_first_arg _ _ _) as [[]|]; simpl; [| done].
    destruct (check_empty_first _ _ _) as [[]|]; simpl; [| done].
    destruct (check_empty_rest _ _) as [[]|]; simpl; [| done].
    destruct (mapM (render_group _ _ _ _) _); simpl; [| done].
    destruct (_ =? 0); [| done]. destruct (negb _); [| done].
    by destruct (all_defaults_entry _ _ _).
Qed.

End Outcomes.

(** X17: the advertised table, and whether the registration fails,
    depend on the parameter names and defaults of the handler only: two
    handlers with the same [getargspec] get the same strings, descriptors
    and exceptions, whatever their bodies and whether or not they are
    generators. *)
Theorem X17_table_depends_on_argspec `{TB : TypeBridge} {R : Type}
    (repr : Value → string) (lift lift' : Callable R → Callable R)
    (sa : SettingArgs) (f g : Handler R) :
  argnames f = argnames g →
  defaults f = defaults g →
  table (decorated repr lift sa f) = table (decorated repr lift' sa g).
Proof.
  intros Hargs Hds.
  pose proof (compile_table_irrelevant repr sa f g lift lift' Hargs Hds) as H.
  unfold table, decorated.
  destruct (compile repr lift sa f) as [[[s t] u]|],
           (compile repr lift' sa g) as [[[s' t'] u']|];
    simpl in *; congruence.
Qed.

(** ** The further properties on concrete settings *)

Lemma sample_declared (ps : list (string * list string)) (p : string)
    (tags : list string) :
  params (setting 0 ps) !! p = Some tags → (p, tags) ∈ ps.
Proof. apply elem_of_list_to_map_2. Qed.

Lemma X7_single_required_parameter_witness :
  ∃ st, register (setting 7 [("data", ["s"])]) echo = Ok st
        ∧ accepts st = ["s"]
        ∧ unpack st self ctx VNone = call echo [self; ctx; VNone].
Proof.
  eexists. split; [reflexivity |].
  pose proof (X7_single_required_parameter repr (λ g, g)
                (setting 7 [("data", ["s"])]) echo _ eq_refl eq_refl
                ltac:(vm_compute; discriminate))
    as (Hs & _ & Hu).
  split; [exact Hs | exact (Hu self ctx VNone)].
Defined.

Lemma X8_single_optional_adapter_witness :
  ∃ st, register (setting 8 [("value", ["i"])]) level = Ok st
        ∧ unpack st self ctx VNone = call level [self; ctx]
        ∧ unpack st self ctx (VTuple [VInt 1; VInt 2])
          = call level [self; ctx; VTuple [VInt 1; VInt 2]].
Proof.
  eexists. split; [reflexivity |].
  pose proof (X8_single_optional_adapter repr (λ g, g)
                (setting 8 [("value", ["i"])]) level _ eq_refl eq_refl eq_refl)
    as (Hnone & Hother).
  split; [exact (Hnone self ctx) |]. apply (Hother self ctx). discriminate.
Defined.

Lemma X9_single_parameter_none_declared_witness :
  ∃ st, register (setting 9 [("value", [""; "i"])]) level = Ok st
        ∧ accepts st = [""; "i"].
Proof.
  eexists. split; [reflexivity |].
  refine (proj1 (X9_single_parameter_none_declared repr (λ g, g)
                   (setting 9 [("value", [""; "i"])]) level _
                   eq_refl eq_refl _)).
  exists [""; "i"], "", TNone. split; [reflexivity |].
  split; [apply list_elem_of_here |]. split; reflexivity.
Defined.

Lemma X10_strings_match_descriptors_witness :
  ∃ st, register (setting 10 [("axis", ["s"; "i"])]) move = Ok st
        ∧ length (accepts st) = length (accepts_t st).
Proof.
  eexists. split; [reflexivity |].
  exact (X10_strings_match_descriptors repr (λ g, g)
           (setting 10 [("axis", ["s"; "i"])]) move _ eq_refl).
Defined.

Lemma X11_unknown_keyword_witness :
  ∃ p, is_Some (params (setting 11 [("lo", ["i"]); ("step", ["i"])]) !! p)
       ∧ (p ∉ setting_args (setting 11 [("lo", ["i"]); ("step", ["i"])]) window)
       ∧ register (setting 11 [("lo", ["i"]); ("step", ["i"])]) window
         = Raise (Exception (msg_invalid_param p)).
Proof.
  refine (proj1 (X11_unknown_keyword repr (λ g, g)
                   (setting 11 [("lo", ["i"]); ("step", ["i"])]) window) _).
  exists "step". split; [by exists ["i"] |].
  vm_compute. intros H. repeat (inversion H as [|? ? ? H']; clear H; rename H' into H).
Defined.

Lemma X12_failure_causes_witness :
  failure (setting 12 [("lo", ["?"])]) window (Exception msg_cluster_or_any).
Proof.
  exact (X12_failure_causes repr (λ g, g) (setting 12 [("lo", ["?"])]) window
           _ eq_refl).
Defined.

Lemma X14_well_declared_registers_witness :
  ∃ st, register (setting 14 [("start", ["i"])]) scan = Ok st.
Proof.
  refine (X14_well_declared_registers repr (λ g, g)
            (setting 14 [("start", ["i"])]) scan _ _ _ _).
  - intros p [tags Hp]. apply sample_declared in Hp.
    apply list_elem_of_singleton in Hp as [= -> _].
    apply list_elem_of_here.
  - intros s [-> | [-> | (p & tags & Hp & Hs)]]; [by eexists | by eexists |].
    apply sample_declared in Hp. apply list_elem_of_singleton in Hp as [= _ ->].
    apply list_elem_of_singleton in Hs as ->. by eexists.
  - intros _ _. exists ["i"]. split; [reflexivity |].
    intros s t ->%list_elem_of_singleton Ht. vm_compute in Ht.
    injection Ht as <-. reflexivity.
  - intros _ j (tags & s & t & Hdecl & Hs & Ht & Hnone). exfalso.
    destruct j as [|[|j]]; vm_compute in Hdecl; [| discriminate..].
    injection Hdecl as <-. apply list_elem_of_singleton in Hs as ->.
    vm_compute in Ht. injection Ht as <-. discriminate Hnone.
Defined.

Lemma X15_annotation_of_shortest_groups_witness :
  ∃ st, register (setting 15 [("axis", ["s"])]) move = Ok st
        ∧ ∃ s0 parts,
            accepts st !! 2%nat
              = Some (s0 +:+ defaults_note (Py.join ", " parts))
            ∧ declared_pairs repr (setting 15 [("axis", ["s"])]) move
                             [1; 2]%nat parts.
Proof.
  eexists. split; [reflexivity |].
  refine (X15_annotation_of_shortest_groups repr (λ g, g)
            (setting 15 [("axis", ["s"])]) move _ 2 ["s"]
            eq_refl _ _ _ eq_refl eq_refl).
  - vm_compute. discriminate.
  - vm_compute. discriminate.
  - reflexivity.
Defined.


Lemma X17_table_depends_on_argspec_witness :
  table (register (setting 17 [("value", ["i"])]) level)
  = table (decorated repr (λ _ _, ArgumentError)
             (setting 17 [("value", ["i"])]) level_later).
Proof.
  exact (X17_table_depends_on_argspec repr (λ g, g) (λ _ _, ArgumentError)
           (setting 17 [("value", ["i"])]) level level_later eq_refl eq_refl).
Defined.

(** ** The adapter against the advertised arities *)

Lemma call_returns_iff {R} (f : Handler R) (pos : list Value) :
  (∃ r, call f pos = Returned r) ↔
  (length (argnames f) - length (defaults_list f) ≤ length pos
   ∧ length pos ≤ length (argnames f))%nat.
Proof.
  unfold call, bind_positional.
  destruct (bool_decide (length (argnames f) < length pos)%nat) eqn:Hhi;
    [| destruct (bool_decide (length pos < length (argnames f)
                                - length (defaults_list f))%nat) eqn:Hlo];
    simpl.
  - apply bool_decide_eq_true in Hhi. split; [by intros [r [=]] | lia].
  - apply bool_decide_eq_true in Hlo. split; [by intros [r [=]] | lia].
  - apply bool_decide_eq_false in Hhi, Hlo. split; [lia | by eexists].
Qed.

Section Dispatch.
Context `{TB : TypeBridge} {R : Type}.
Variable repr : Value → string.
Variable inlineCallbacks : Callable R → Callable R.

Local Abbreviation registration := (decorated repr inlineCallbacks).
Local Abbreviation target := (lifted inlineCallbacks).

(** X18: for a plain method with the usual two context parameters, no
    default among them, and two or more setting parameters, the call made
    by the adapter binds for every advertised arity: a tuple of [m] items
    with [Nrequired <= m <= Nparams] is accepted by the method, and a
    tuple of fewer than [Nrequired] items is refused by it; a payload that
    is neither a tuple nor [None] is accepted if and only if at most one
    argument is required; and [None] is accepted when nothing is
    required.  (Tuples of more than [Nparams] items are left out: whether
    they bind depends on the method having a star parameter.) *)
Theorem X18_adapter_binds_advertised_arities (sa : SettingArgs)
    (f : Handler R) (st : Setting LRType R) (self c : Value) :
  registration sa f = Ok st →
  2 ≤ Nparams sa f →
  lr_num_params sa = 2 →
  0 ≤ Nrequired sa f →
  _isGenerator f = false →
  (∀ items, Nrequired sa f ≤ Py.len items ≤ Nparams sa f →
            ∃ r, unpack st self c (VTuple items) = Returned r)
  ∧ (∀ items, Py.len items < Nrequired sa f →
              unpack st self c (VTuple items) = ArgumentError)
  ∧ (∀ data, data ≠ VNone → (∀ items, data ≠ VTuple items) →
       (∃ r, unpack st self c data = Returned r) ↔ Nrequired sa f ≤ 1)
  ∧ (Nrequired sa f = 0 → ∃ r, unpack st self c VNone = Returned r).
Proof.
  intros Hst HN Hctx Hreq Hgen.
  rewrite (unpack_of_many _ _ _ _ _ Hst HN).
  assert (Htarget : target f = call f) by (unfold lifted; by rewrite Hgen).
  assert (HL : Z.of_nat (length (argnames f)) = Nparams sa f + 2).
  { unfold Nparams, setting_args, Py.slice_from, Py.len in *.
    rewrite Hctx in *. simpl in *. rewrite length_drop in *. lia. }
  assert (HD : Z.of_nat (length (defaults_list f))
               = Nparams sa f - Nrequired sa f).
  { unfold Nrequired, Noptional, defaults_list, Py.len.
    destruct (defaults f); simpl; lia. }
  assert (Hcall : ∀ pos, (∃ r, call f pos = Returned r) ↔
                         Nrequired sa f + 2 ≤ Py.len pos ≤ Nparams sa f + 2).
  { intros pos. rewrite call_returns_iff. unfold Py.len. lia. }
  assert (Htuple : ∀ items,
    (if Nrequired sa f =? 0 then unpack_many_optional (call f)
     else unpack_many (call f)) self c (VTuple items)
    = call f (self :: c :: items)) by (intros; by destruct (_ =? 0)).
  rewrite Htarget. split; [| split; [| split]].
  - intros items Hm. rewrite Htuple. apply Hcall.
    unfold Py.len in *. simpl. lia.
  - intros items Hm. rewrite Htuple.
    destruct (call f (self :: c :: items)) as [r|] eqn:Hr; [| done].
    exfalso. assert (Hex : ∃ r, call f (self :: c :: items) = Returned r)
      by by exists r.
    apply Hcall in Hex. unfold Py.len in *. simpl in Hex. lia.
  - intros data Hnone Hnot.
    replace ((if Nrequired sa f =? 0 then unpack_many_optional (call f)
              else unpack_many (call f)) self c data)
      with (call f [self; c; data]).
    + rewrite Hcall. unfold Py.len. simpl. lia.
    + destruct (_ =? 0), data; try done; by destruct (Hnot items).
  - intros H0. rewrite H0. simpl. apply Hcall. unfold Py.len. simpl. lia.
Qed.

End Dispatch.

Lemma X18_adapter_binds_advertised_arities_witness :
  ∃ st, register (setting 18 [("axis", ["s"])]) move = Ok st
        ∧ (∃ r, unpack st self ctx (VTuple [VStr "x"; VInt 3]) = Returned r)
        ∧ unpack st self ctx (VTuple []) = ArgumentError.
Proof.
  eexists. split; [reflexivity |].
  pose proof (X18_adapter_binds_advertised_arities repr (λ g, g)
                (setting 18 [("axis", ["s"])]) move _ self ctx
                eq_refl ltac:(vm_compute; discriminate) eq_refl
                ltac:(vm_compute; discriminate) eq_refl)
    as (Hin & Hshort & _).
  split.
  - apply Hin. vm_compute. split; discriminate.
  - apply Hshort. reflexivity.
Defined.

Lemma X2_product_length_witness :
  _product [["s"; "i"]; @nil string; ["?"]] = [].
Proof.
  apply (proj2 (X2_product_length [["s"; "i"]; []; ["?"]])).
  apply list_elem_of_further, list_elem_of_here.
Defined.
